(** * mne.datasets._fsaverage.base : fetching the fsaverage template

    A shallow embedding of [mne/datasets/_fsaverage/base.py] and of the
    few library primitives it calls, followed by the properties of the
    path resolver, of the manifest synchronizer and of [fetch_fsaverage].

    Python values are embedded as follows.
    - A [str] is a Rocq [string]; every character stands for one code
      point below 256.
    - [None]-or-[str] arguments are [option string].
    - The process state the module reads and writes (configuration,
      environment, working directory, file system, remote archives, the
      requests made so far) is one record, [World], threaded through a
      state-and-exception monad [Py].
    - [os.path] is the POSIX flavour ([posixpath]), and the file system
      has no symbolic links. [os.makedirs] follows a path as it is
      written, component by component; the tests and reads of files
      name their place by the normal form of the path.
    - The helpers the module imports from [mne.utils] and
      [mne.datasets.utils] are modelled from their specification; the
      content hash and the archive parser are parameters.
    - Logging (the [verbose] decorator and argument) is left out. *)

From Stdlib Require Import Ascii String.
From stdpp Require Import base gmap strings list.

Open Scope string_scope.

(** ** Python strings *)

Module pystr.

(** [s.startswith(prefix)] *)
Fixpoint startswith (s prefix : string) {struct prefix} : bool :=
  match prefix with
  | "" => true
  | String p prefix' =>
      match s with
      | "" => false
      | String c s' => Ascii.eqb c p && startswith s' prefix'
      end
  end.

(** [s.endswith('/')] *)
Fixpoint endswith_sep (s : string) : bool :=
  match s with
  | "" => false
  | String c rest =>
      match rest with
      | "" => Ascii.eqb c "/"
      | _ => endswith_sep rest
      end
  end.

(** ['/' in s] *)
Fixpoint contains_sep (s : string) : bool :=
  match s with
  | "" => false
  | String c rest => Ascii.eqb c "/" || contains_sep rest
  end.

(** [s == '/' * len(s)] *)
Fixpoint all_sep (s : string) : bool :=
  match s with
  | "" => true
  | String c rest => Ascii.eqb c "/" && all_sep rest
  end.

(** [s.rstrip('/')] *)
Fixpoint rstrip_sep (s : string) : string :=
  match s with
  | "" => ""
  | String c rest =>
      let r := rstrip_sep rest in
      if String.eqb r "" && Ascii.eqb c "/" then "" else String c r
  end.

(** [s.split('/')]: never empty, one more piece than there are
    separators. *)
Fixpoint split_sep (s : string) : list string :=
  match s with
  | "" => [""]
  | String c rest =>
      if Ascii.eqb c "/" then "" :: split_sep rest
      else match split_sep rest with
           | [] => [String c ""]
           | h :: t => String c h :: t
           end
  end.

(** [s.split('\n')] with the empty piece after a final newline dropped:
    the lines of a text file. *)
Fixpoint lines (s : string) : list string :=
  match s with
  | "" => []
  | String c rest =>
      if Ascii.eqb c "010" then "" :: lines rest
      else match lines rest with
           | [] => [String c ""]
           | h :: t => String c h :: t
           end
  end.

(** [c in s] *)
Fixpoint contains_char (c : ascii) (s : string) : bool :=
  match s with
  | "" => false
  | String d rest => Ascii.eqb c d || contains_char c rest
  end.

Definition hex_digit (n : N) : ascii :=
  match n with
  | 0 => "0" | 1 => "1" | 2 => "2" | 3 => "3" | 4 => "4" | 5 => "5"
  | 6 => "6" | 7 => "7" | 8 => "8" | 9 => "9" | 10 => "a" | 11 => "b"
  | 12 => "c" | 13 => "d" | 14 => "e" | _ => "f"
  end%N%char.

(** [str.isprintable] on code points below 256: the C0 and C1 controls,
    DEL, the no-break space and the soft hyphen are not printable. *)
Definition isprintable (c : ascii) : bool :=
  let n := N_of_ascii c in
  ((32 <=? n) && (n <? 127) || (161 <=? n) && negb (n =? 173))%N.

(** The escape [repr] writes for one character inside quotes [q]. *)
Definition repr_char (q c : ascii) : string :=
  let n := N_of_ascii c in
  if Ascii.eqb c q || Ascii.eqb c "\" then String "\" (String c "")
  else if (n =? 9)%N then "\t"
  else if (n =? 10)%N then "\n"
  else if (n =? 13)%N then "\r"
  else if isprintable c then String c ""
  else String "\" (String "x" (String (hex_digit (n / 16))
                               (String (hex_digit (n mod 16)) ""))).

Fixpoint repr_body (q : ascii) (s : string) : string :=
  match s with
  | "" => ""
  | String c rest => repr_char q c +:+ repr_body q rest
  end.

(** [repr(s)], what [%r] formats: single quotes unless the string holds
    a single quote and no double quote. *)
Definition repr (s : string) : string :=
  let q : ascii :=
    if contains_char "'" s && negb (contains_char "034" s)
    then "034"%char else "'"%char in
  String q (repr_body q s +:+ String q "").

End pystr.

(** ** os.path (posixpath) *)

Module posixpath.
Import pystr.

Definition isabs (s : string) : bool := startswith s "/".

(** [os.path.join(a, b)] *)
Definition join (a b : string) : string :=
  if startswith b "/" then b
  else if String.eqb a "" || endswith_sep a then a +:+ b
  else a +:+ "/" +:+ b.

(** POSIX keeps exactly two leading slashes apart from one; three or
    more count as one. *)
Definition initial_slashes (path : string) : nat :=
  if startswith path "/" then
    if startswith path "//" && negb (startswith path "///") then 2 else 1
  else 0.

(** One turn of the loop of [normpath] over the components. *)
Definition norm_step (initial : nat) (new_comps : list string)
    (comp : string) : list string :=
  if String.eqb comp "" || String.eqb comp "." then new_comps
  else if negb (String.eqb comp "..")
          || (Nat.eqb initial 0 && bool_decide (new_comps = []))
          || bool_decide (last new_comps = Some "..")
  then (new_comps ++ [comp])%list
  else removelast new_comps.

Definition norm_comps (initial : nat) (comps : list string) : list string :=
  fold_left (norm_step initial) comps [].

Definition slashes (n : nat) : string := String.concat "" (replicate n "/").

(** [os.path.normpath(path)] *)
Definition normpath (path : string) : string :=
  if String.eqb path "" then "."
  else
    let initial := initial_slashes path in
    let comps := norm_comps initial (split_sep path) in
    let path' := slashes initial +:+ String.concat "/" comps in
    if String.eqb path' "" then "." else path'.

(** [os.path.abspath(path)], with [cwd] the value of [os.getcwd()]. *)
Definition abs_join (cwd path : string) : string :=
  if isabs path then path else join cwd path.

Definition abspath (cwd path : string) : string :=
  normpath (abs_join cwd path).

(** [p[:p.rfind('/') + 1]] *)
Fixpoint upto_last_sep (p : string) : string :=
  match p with
  | "" => ""
  | String c rest =>
      if Ascii.eqb c "/" || contains_sep rest
      then String c (upto_last_sep rest) else ""
  end.

(** [os.path.dirname(p)] *)
Definition dirname (p : string) : string :=
  let head := upto_last_sep p in
  if negb (String.eqb head "") && negb (all_sep head)
  then rstrip_sep head else head.

End posixpath.

(** ** The process state *)

(** What a path of the file system holds. *)
Inductive node : Type :=
| Dir
| File (content : string).

(** The exceptions that reach the caller: the [ValueError] of the path
    resolver, [OSError] for a file-system failure, and the synchronizer's
    transport failure, verification failure and unusable archive. *)
Inductive exn : Type :=
| ValueError (msg : string)
| OSError (path : string)
| TransportError (url : string)
| VerificationError (expected actual : string)
| ArchiveError (member : string).

Record World : Type := mkWorld {
  config : gmap string string;       (* the persisted MNE configuration *)
  environ : gmap string string;      (* os.environ *)
  cwd : string;                      (* os.getcwd() *)
  home : string;                     (* the expansion of ~ *)
  fs : gmap (list string) node;      (* resolved absolute path -> node *)
  remote : gmap string string;       (* url -> bytes served *)
  requests : list string             (* urls requested so far, latest first *)
}.

Definition set_config_map (c : gmap string string) (w : World) : World :=
  mkWorld c (environ w) (cwd w) (home w) (fs w) (remote w) (requests w).

Definition set_fs (f : gmap (list string) node) (w : World) : World :=
  mkWorld (config w) (environ w) (cwd w) (home w) f (remote w) (requests w).

Definition log_request (url : string) (w : World) : World :=
  mkWorld (config w) (environ w) (cwd w) (home w) (fs w) (remote w)
          (url :: requests w).

(** ** Computations that read and write the world and may raise *)

Inductive outcome (A : Type) : Type :=
| Ok (a : A) (w : World)
| Raise (e : exn) (w : World).
Arguments Ok {A} a w.
Arguments Raise {A} e w.

Definition final {A} (o : outcome A) : World :=
  match o with Ok _ w => w | Raise _ w => w end.

(** The value a run returned and the exception it raised, if any. *)
Definition returned {A} (o : outcome A) : option A :=
  match o with Ok a _ => Some a | Raise _ _ => None end.

Definition raised {A} (o : outcome A) : option exn :=
  match o with Ok _ _ => None | Raise e _ => Some e end.

Definition Py (A : Type) : Type := World → outcome A.

Definition ret {A} (a : A) : Py A := λ w, Ok a w.

Definition bind {A B} (m : Py A) (k : A → Py B) : Py B :=
  λ w, match m w with
       | Ok a w' => k a w'
       | Raise e w' => Raise e w'
       end.

Definition raise {A} (e : exn) : Py A := λ w, Raise e w.

Definition get_world : Py World := λ w, Ok w w.

Definition modify (f : World → World) : Py unit := λ w, Ok tt (f w).

Declare Scope py_scope.
Delimit Scope py_scope with py.
Notation "x <- m ;; k" := (bind m (λ x, k))
  (at level 100, m at next level, right associativity) : py_scope.
Notation "m ;;; k" := (bind m (λ _, k))
  (at level 100, right associativity) : py_scope.
Open Scope py_scope.

(** [for x in l: body(x)] *)
Fixpoint for_each {A} (l : list A) (body : A → Py unit) : Py unit :=
  match l with
  | [] => ret tt
  | x :: rest => body x ;;; for_each rest body
  end.

(** ** os and the file system *)

(** The place a path string names, read off the string alone: the
    components of its absolute, normalised form. The root is [[]].
    This is the place the system finds when every directory the path
    goes through exists, as is the case for a path in normal form; a
    path that leaves a missing directory, or a regular file, through
    [..] names no place for the system, and [makedirs] below does not
    use [fs_key] but follows the path as it is written. *)
Definition fs_key (w : World) (path : string) : list string :=
  posixpath.norm_comps 1
    (pystr.split_sep (posixpath.abs_join (cwd w) path)).

Definition node_at (f : gmap (list string) node) (k : list string)
    : option node :=
  match k with
  | [] => Some Dir
  | _ => f !! k
  end.

Definition isfile (w : World) (path : string) : bool :=
  match node_at (fs w) (fs_key w path) with
  | Some (File _) => true
  | _ => false
  end.

Definition isdir (w : World) (path : string) : bool :=
  match node_at (fs w) (fs_key w path) with
  | Some Dir => true
  | _ => false
  end.

(** The bytes of the regular file at [path], if there is one. *)
Definition file_content (w : World) (path : string) : option string :=
  match node_at (fs w) (fs_key w path) with
  | Some (File content) => Some content
  | _ => None
  end.

(** Walk down from [above], making each missing directory on the way;
    [None] when a regular file is in the way. *)
Fixpoint mkdir_chain (above todo : list string)
    (f : gmap (list string) node) : option (gmap (list string) node) :=
  match todo with
  | [] => Some f
  | c :: rest =>
      let k := (above ++ [c])%list in
      match f !! k with
      | Some (File _) => None
      | Some Dir => mkdir_chain k rest f
      | None => mkdir_chain k rest (<[k := Dir]> f)
      end
  end.

(** One component of a path as the system follows it from the
    directory [cur]: an empty component and [.] stay, [..] is the
    directory above (the root is above itself), a name is the entry of
    that name. *)
Definition path_step (cur : list string) (comp : string) : list string :=
  if String.eqb comp "" || String.eqb comp "." then cur
  else if String.eqb comp ".." then removelast cur
  else (cur ++ [comp])%list.

(** The places a path goes through, in order, when it is followed as
    written from [cur]. *)
Fixpoint trail_from (cur : list string) (comps : list string)
    : list (list string) :=
  match comps with
  | [] => []
  | comp :: rest =>
      path_step cur comp :: trail_from (path_step cur comp) rest
  end.

(** What [os.makedirs(name, exist_ok=True)] does to the file system: it
    goes through the components of [name] as they are written and makes
    each directory that is missing where it arrives, also one that the
    path leaves again through [..]. A regular file where it arrives
    stops it, and the directories made until then stay: the result is
    [false] with the file system so far. *)
Fixpoint makedirs_walk (cur comps : list string)
    (f : gmap (list string) node) : bool * gmap (list string) node :=
  match comps with
  | [] => (true, f)
  | comp :: rest =>
      let k := path_step cur comp in
      match node_at f k with
      | Some (File _) => (false, f)
      | Some Dir => makedirs_walk k rest f
      | None => makedirs_walk k rest (<[k := Dir]> f)
      end
  end.

(** [os.makedirs(name, exist_ok=True)]. The empty name is refused; a
    relative name is followed from the working directory. *)
Definition makedirs (name : string) : Py unit := λ w,
  if String.eqb name "" then Raise (OSError name) w
  else match makedirs_walk []
               (pystr.split_sep (posixpath.abs_join (cwd w) name)) (fs w) with
       | (true, f) => Ok tt (set_fs f w)
       | (false, f) => Raise (OSError name) (set_fs f w)
       end.

(** [open(path).read()] *)
Definition read_text (path : string) : Py string := λ w,
  match node_at (fs w) (fs_key w path) with
  | Some (File content) => Ok content w
  | _ => Raise (OSError path) w
  end.

(** Writing one archive member to [path]: the directories above it are
    made first, then the file is created or truncated and written. *)
Definition write_member (path content : string) : Py unit := λ w,
  let k := fs_key w path in
  match mkdir_chain [] (removelast k) (fs w) with
  | None => Raise (OSError path) w
  | Some f =>
      match node_at f k with
      | Some Dir => Raise (OSError path) (set_fs f w)
      | _ => Ok tt (set_fs (<[k := File content]> f) w)
      end
  end.

(** An HTTP GET of [url]: the request is made, and fails when nothing
    is served there. *)
Definition http_get (url : string) : Py string := λ w,
  match remote w !! url with
  | Some bytes => Ok bytes (log_request url w)
  | None => Raise (TransportError url) (log_request url w)
  end.

(** ** mne.utils and mne.datasets.utils *)

Section Fsaverage.

(** The external primitives: the content hash of downloaded bytes (as
    the hex digest the descriptors quote) and the parser of the archive
    format, which gives the members of an archive with their contents. *)
Variable content_hash : string → string.
Variable unzip : string → option (list (string * string)).

(** [__file__] of [mne/datasets/_fsaverage/base.py]. *)
Variable module_file : string.

(** Modelled from the spec: [get_config], the read half of the get/set
    abstraction over the persisted configuration; an unset key gives
    [None] without raising. *)
Definition get_config (key : string) : Py (option string) := λ w,
  Ok (config w !! key) w.

(** Modelled from the spec: [set_config], the write half (key, string ->
    persisted). [config] is the persisted store and the entry is written
    there; the environment of the process is not described by this
    model of the call. *)
Definition set_config (key value : string) : Py unit :=
  modify (λ w, set_config_map (<[key := value]> (config w)) w).

(** Modelled from the spec: [get_subjects_dir(subjects_dir,
    raise_error=False)], the existing-configuration lookup used when the
    caller gave no directory. *)
Definition get_subjects_dir (subjects_dir : option string)
    : Py (option string) :=
  match subjects_dir with
  | None => get_config "SUBJECTS_DIR"
  | Some d => ret (Some d)
  end.

(** Modelled from the spec: [_get_path(path, key, name)], the base data
    directory. A given [path] is the answer; with [None], the only
    argument this module passes, it is the value of the environment
    variable [key] and, that unset, [~/mne_data] (the docstring of
    [fetch_fsaverage]). [name] only labels the dataset in messages. *)
Definition _get_path (path : option string) (key name : string)
    : Py string := λ w,
  match path with
  | Some d => Ok d w
  | None =>
      match environ w !! key with
      | Some d => Ok d w
      | None => Ok (posixpath.join (home w) "mne_data") w
      end
  end.

(** The content of member [name] of an unpacked archive. *)
Fixpoint member (name : string) (members : list (string * string))
    : option string :=
  match members with
  | [] => None
  | (n, content) :: rest =>
      if String.eqb n name then Some content else member name rest
  end.

(** Modelled from the spec: the extraction primitive (archive + selected
    entries -> extracted files), one selected entry after the other. *)
Definition extract (members : list (string * string))
    (destination : string) (selected : list string) : Py unit :=
  for_each selected (λ name,
    match member name members with
    | None => raise (ArchiveError name)
    | Some content => write_member (posixpath.join destination name) content
    end).

(** The manifest entries that are not files under [destination]. *)
Definition missing (w : World) (destination : string)
    (names : list string) : list string :=
  filter (λ name, isfile w (posixpath.join destination name) = false) names.

(** Modelled from the spec: [_manifest_check_download], the manifest
    synchronizer of one descriptor (spec 4.2). The manifest is read;
    when no entry is missing nothing else happens; otherwise the archive
    is downloaded, its hash is compared with [hash_] before anything is
    unpacked, and only the missing entries are extracted. The downloaded
    archive lives in a temporary location bound to [archive] and is
    released on every way out. *)
Definition _manifest_check_download
    (destination manifest_path url hash_ : string) : Py unit :=
  text <- read_text manifest_path ;;
  let names := pystr.lines text in
  w <- get_world ;;
  let need := missing w destination names in
  if bool_decide (need = []) then ret tt
  else
    archive <- http_get url ;;
    if negb (String.eqb (content_hash archive) hash_)
    then raise (VerificationError hash_ (content_hash archive))
    else match unzip archive with
         | None => raise (ArchiveError "")
         | Some members => extract members destination need
         end.

(** ** mne/datasets/_fsaverage/base.py *)

Definition FSAVERAGE_MANIFEST_PATH : string := posixpath.dirname module_file.

Record descriptor : Type := mkDescriptor {
  url : string;
  hash_ : string;
  manifest : string;
  destination : string
}.

(** The dict [fsaverage_data_parts], as the list of its items in
    insertion order, which is the order the loop visits them in.
    [op.join(subjects_dir)] with one argument is [subjects_dir]. *)
Definition fsaverage_data_parts (subjects_dir : string)
    : list (string * descriptor) :=
  [ ("root.zip",
     {| url := "https://osf.io/3bxqt/download?revision=2";
        hash_ := "5133fe92b7b8f03ae19219d5f46e4177";
        manifest := posixpath.join FSAVERAGE_MANIFEST_PATH "root.txt";
        destination := subjects_dir |});
    ("bem.zip",
     {| url := "https://osf.io/7ve8g/download?revision=2";
        hash_ := "608c438af6a15a19b66232323088b32d";
        manifest := posixpath.join FSAVERAGE_MANIFEST_PATH "bem.txt";
        destination := posixpath.join subjects_dir "fsaverage" |}) ].

Definition _get_create_subjects_dir (subjects_dir : option string)
    : Py string :=
  subjects_dir <- get_subjects_dir subjects_dir ;;
  match subjects_dir with
  | None =>
      subjects_dir <- _get_path None "MNE_DATA" "montage coregistration" ;;
      let subjects_dir := posixpath.join subjects_dir "MNE-fsaverage-data" in
      makedirs subjects_dir ;;;
      ret subjects_dir
  | Some subjects_dir => ret subjects_dir
  end.

(** The text of the [ValueError]: both directories formatted with [%r]. *)
Definition conflict_message (old_subjects_dir subjects_dir : string)
    : string :=
  "The subjects dir is already set to " +:+ pystr.repr old_subjects_dir
  +:+ ", which does not match the provided subjects_dir="
  +:+ pystr.repr subjects_dir.

(** A message names a directory when it holds the [%r] form of it. *)
Definition mentions (msg dir : string) : Prop :=
  ∃ before after, msg = before +:+ pystr.repr dir +:+ after.

Definition _set_montage_coreg_path (subjects_dir : option string)
    : Py string :=
  subjects_dir <- _get_create_subjects_dir subjects_dir ;;
  old_subjects_dir <- get_subjects_dir None ;;
  match old_subjects_dir with
  | Some old =>
      if negb (String.eqb old subjects_dir)
      then raise (ValueError (conflict_message old subjects_dir))
      else set_config "SUBJECTS_DIR" subjects_dir ;;; ret subjects_dir
  | None => set_config "SUBJECTS_DIR" subjects_dir ;;; ret subjects_dir
  end.

(** The body of the loop over [fsaverage_data_parts.items()]. *)
Definition sync (part : string * descriptor) : Py unit :=
  let data := part.2 in
  _manifest_check_download (destination data) (manifest data)
                           (url data) (hash_ data).

Definition fetch_fsaverage (subjects_dir : option string) : Py string :=
  subjects_dir <- _set_montage_coreg_path subjects_dir ;;
  w <- get_world ;;
  let subjects_dir := posixpath.abspath (cwd w) subjects_dir in
  let fs_dir := posixpath.join subjects_dir "fsaverage" in
  makedirs fs_dir ;;;
  for_each (fsaverage_data_parts subjects_dir) sync ;;;
  ret fs_dir.

End Fsaverage.

(** ** A concrete installation

    A toy archive format to run the definitions on: the first 32
    characters of an archive are its digest, the rest is one
    [name=content] line per member. *)

Module demo.

Definition digest (bytes : string) : string := substring 0 32 bytes.

Fixpoint cut_eq (s : string) : string * string :=
  match s with
  | "" => ("", "")
  | String c rest =>
      if Ascii.eqb c "=" then ("", rest)
      else let (n, v) := cut_eq rest in (String c n, v)
  end.

Definition unpack (bytes : string) : option (list (string * string)) :=
  if (String.length bytes <? 32)%nat then None
  else Some (map cut_eq
               (pystr.lines (substring 32 (String.length bytes - 32) bytes))).

Definition nl : string := String "010" "".

Definition base_py : string := "/opt/mne/datasets/_fsaverage/base.py".

Definition root_txt : string :=
  "fsaverage/mri/brain.mgz" +:+ nl +:+ "fsaverage/surf/lh.white" +:+ nl.

Definition bem_txt : string :=
  "bem/fsaverage-head.fif" +:+ nl +:+ "bem/fsaverage-fiducials.fif" +:+ nl.

Definition root_zip : string :=
  "5133fe92b7b8f03ae19219d5f46e4177"
  +:+ "fsaverage/mri/brain.mgz=BRAIN" +:+ nl
  +:+ "fsaverage/surf/lh.white=WHITE" +:+ nl.

Definition bem_zip : string :=
  "608c438af6a15a19b66232323088b32d"
  +:+ "bem/fsaverage-head.fif=HEAD" +:+ nl
  +:+ "bem/fsaverage-fiducials.fif=FID" +:+ nl.

(** A download that was damaged on the way. *)
Definition bad_zip : string :=
  "00000000000000000000000000000000"
  +:+ "fsaverage/mri/brain.mgz=XXXXX" +:+ nl.

Definition osf : gmap string string :=
  <["https://osf.io/3bxqt/download?revision=2" := root_zip]>
    (<["https://osf.io/7ve8g/download?revision=2" := bem_zip]> ∅).

Definition disk : gmap (list string) node :=
  list_to_map
    [ (["opt"], Dir); (["opt"; "mne"], Dir);
      (["opt"; "mne"; "datasets"], Dir);
      (["opt"; "mne"; "datasets"; "_fsaverage"], Dir);
      (["opt"; "mne"; "datasets"; "_fsaverage"; "root.txt"], File root_txt);
      (["opt"; "mne"; "datasets"; "_fsaverage"; "bem.txt"], File bem_txt);
      (["home"], Dir); (["home"; "ada"], Dir) ].

(** A fresh account: nothing configured, nothing downloaded. *)
Definition fresh : World :=
  {| config := ∅; environ := ∅; cwd := "/home/ada"; home := "/home/ada";
     fs := disk; remote := osf; requests := [] |}.

(** The same account with [SUBJECTS_DIR] already set to [/a]. *)
Definition configured : World :=
  set_config_map {["SUBJECTS_DIR" := "/a"]} fresh.

(** The same account with a regular file where [~/mne_data] should be. *)
Definition blocked : World :=
  set_fs (<[ ["home"; "ada"; "mne_data"] := File "" ]> disk) fresh.

(** The same account with [MNE_DATA] written through a directory [x]
    that does not exist. *)
Definition detour : World :=
  {| config := ∅; environ := {["MNE_DATA" := "/home/ada/x/../y"]};
     cwd := "/home/ada"; home := "/home/ada";
     fs := disk; remote := osf; requests := [] |}.

(** The same with a regular file at [x]. *)
Definition detour_file : World :=
  set_fs (<[ ["home"; "ada"; "x"] := File "" ]> disk) detour.

(** The same with [x] missing and a regular file at [y]. *)
Definition detour_blocked : World :=
  set_fs (<[ ["home"; "ada"; "y"] := File "" ]> disk) detour.

(** The same account behind a proxy that serves a damaged root archive. *)
Definition tampered : World :=
  {| config := ∅; environ := ∅; cwd := "/home/ada"; home := "/home/ada";
     fs := disk;
     remote := <["https://osf.io/3bxqt/download?revision=2" := bad_zip]> osf;
     requests := [] |}.

(** The same account after someone put a brain volume of their own under
    [/home/ada/data] by hand. *)
Definition partial : World :=
  set_fs (<[ ["home"; "ada"; "data"; "fsaverage"; "mri"; "brain.mgz"]
             := File "MINE" ]>
          (<[ ["home"; "ada"; "data"; "fsaverage"; "mri"] := Dir ]>
          (<[ ["home"; "ada"; "data"; "fsaverage"] := Dir ]>
          (<[ ["home"; "ada"; "data"] := Dir ]> disk)))) fresh.

Definition root_manifest : string := "/opt/mne/datasets/_fsaverage/root.txt".
Definition root_url : string := "https://osf.io/3bxqt/download?revision=2".
Definition root_hash : string := "5133fe92b7b8f03ae19219d5f46e4177".

Definition fetch := fetch_fsaverage digest unpack base_py.
Definition check_download := _manifest_check_download digest unpack.

(** [partial] after the root archive has been synchronized into
    [/home/ada/data]. *)
Definition complete : World :=
  final (check_download "/home/ada/data" root_manifest root_url root_hash
                        partial).

End demo.

(** * Vocabulary of the properties *)

Close Scope string_scope.

(** What a run of the synchronizer may change. [evolves w w']:
    everything but the file system and the request log is the same,
    directories are still directories, files are still files, and the
    log has only grown. *)
Record evolves (w w' : World) : Prop := mkEvolves {
  ev_config : config w' = config w;
  ev_environ : environ w' = environ w;
  ev_cwd : cwd w' = cwd w;
  ev_home : home w' = home w;
  ev_remote : remote w' = remote w;
  ev_dirs : ∀ k, fs w !! k = Some Dir → fs w' !! k = Some Dir;
  ev_files : ∀ k c, fs w !! k = Some (File c) →
                    ∃ c', fs w' !! k = Some (File c');
  ev_requests : ∃ l, requests w' = l ++ requests w
}.

(** A computation is [steady] when every run of it, returning or
    raising, leaves a world the initial one [evolves] into. *)
Definition steady {A} (m : Py A) : Prop := ∀ w, evolves w (final (m w)).

(** [keeps w0 w]: every regular file of [w0] is in [w] with the same
    bytes, and relative paths still mean the same. *)
Definition keeps (w0 w : World) : Prop :=
  cwd w = cwd w0 ∧
  ∀ k content, fs w0 !! k = Some (File content) →
               fs w !! k = Some (File content).

(** The places on the way from the root down to [path], [path] last. *)
Definition way (w : World) (path : string) : list (list string) :=
  (λ i, take i (fs_key w path)) <$> seq 1 (length (fs_key w path)).

(** The places [path] goes through when it is followed as written, from
    the root for an absolute path and from the working directory for a
    relative one: those of [way], and besides them every place the path
    enters and leaves again through [..]. *)
Definition trail (w : World) (path : string) : list (list string) :=
  trail_from [] (pystr.split_sep (posixpath.abs_join (cwd w) path)).

(** A string [repr] writes as it is between single quotes: printable
    characters only, no single quote, no backslash. *)
Fixpoint plain (s : string) : bool :=
  match s with
  | ""%string => true
  | String c rest =>
      pystr.isprintable c && negb (Ascii.eqb c "'") && negb (Ascii.eqb c "\")
      && plain rest
  end.

(** A component of a normalised path: not empty, no separator. *)
Definition good (comp : string) : Prop :=
  comp ≠ ""%string ∧ pystr.contains_sep comp = false.

(** A component of a normalised absolute path: good, and neither the
    current nor the parent directory. *)
Definition settled (comp : string) : Prop :=
  good comp ∧ comp ≠ "."%string ∧ comp ≠ ".."%string.

(** The shape of a normalised absolute path: one or two slashes, then
    good components separated by single slashes. *)
Definition tidy (r : string) : Prop :=
  ∃ k comps, (k = 1 ∨ k = 2) ∧ Forall good comps ∧
             r = (posixpath.slashes k +:+ String.concat "/" comps)%string.

(** Closed equations between runs of the model are settled by
    evaluation. *)
Ltac run :=
  lazymatch goal with
  | |- ?lhs = ?rhs => vm_cast_no_check (@eq_refl _ rhs)
  end.

Ltac runs :=
  cbv zeta; repeat match goal with |- _ ∧ _ => split end; run.

Ltac each_member H :=
  vm_compute (pystr.lines _) in H;
  repeat (apply elem_of_cons in H as [->|H]);
  [.. | by apply elem_of_nil in H].

(** * Properties *)

(** ** The library model on known values

    The right-hand sides are what CPython's [posixpath] and [repr]
    give. *)

Example normpath_values :
  map posixpath.normpath
    [ ""; "/"; "//"; "///"; "a/b"; "/a/b/"; "/a//b"; "//a/../..";
      "a/../.."; "/.."; "./a/./b"; "///a/b"; "/a/b/../c/." ]%string
  = [ "."; "/"; "//"; "/"; "a/b"; "/a/b"; "/a/b"; "//";
      ".."; "/"; "a/b"; "/a/b"; "/a/c" ]%string.
Proof. reflexivity. Qed.

Example dirname_values :
  map posixpath.dirname
    [ ""; "/"; "//"; "a"; "a/b"; "/a/b/"; "/a//b"; "///a";
      "/a/b/fsaverage" ]%string
  = [ ""; "/"; "//"; ""; "a"; "/a/b"; "/a"; "///"; "/a/b" ]%string.
Proof. reflexivity. Qed.

Example join_values :
  map (λ a, posixpath.join a "fsaverage")
    [ ""; "/"; "a"; "/a/b/"; "/a//b" ]%string
  = [ "fsaverage"; "/fsaverage"; "a/fsaverage"; "/a/b/fsaverage";
      "/a//b/fsaverage" ]%string ∧
  posixpath.join "/home/u" "/a" = "/a"%string.
Proof. split; reflexivity. Qed.

Example abspath_values :
  map (posixpath.abspath "/home/u")
    [ ""; "data"; "../x/./y/"; "/a/../b" ]%string
  = [ "/home/u"; "/home/u/data"; "/home/x/y"; "/b" ]%string.
Proof. reflexivity. Qed.

Example repr_values :
  map pystr.repr [ "/a"; "it's"; "a\b" ]%string
  = [ "'/a'"; String "034" ("it's" +:+ String "034" ""); "'a\\b'" ]%string ∧
  pystr.repr (String "009" (String "127" (String "160" (String "233" ""))))
  = ("'\t\x7f\xa0" +:+ String "233" "'")%string.
Proof. split; reflexivity. Qed.

Example lines_values :
  pystr.lines ("a/b" +:+ String "010" ("c" +:+ String "010" ""))
  = [ "a/b"; "c" ]%string.
Proof. reflexivity. Qed.

(** ** Sequencing *)

Lemma bind_Ok {A B} (m : Py A) (k : A → Py B) w a w1 :
  m w = Ok a w1 → bind m k w = k a w1.
Proof. unfold bind. by intros ->. Qed.

Lemma bind_Raise {A B} (m : Py A) (k : A → Py B) w e w1 :
  m w = Raise e w1 → bind m k w = Raise e w1.
Proof. unfold bind. by intros ->. Qed.

Lemma bind_Ok_inv {A B} (m : Py A) (k : A → Py B) w b w' :
  bind m k w = Ok b w' → ∃ a w1, m w = Ok a w1 ∧ k a w1 = Ok b w'.
Proof.
  unfold bind. destruct (m w) as [a w1|e w1]; [eauto | discriminate].
Qed.

Lemma Ok_final {A} (o : outcome A) a : returned o = Some a → o = Ok a (final o).
Proof. destruct o; cbn; congruence. Qed.

Lemma Raise_final {A} (o : outcome A) e :
  raised o = Some e → o = Raise e (final o).
Proof. destruct o; cbn; congruence. Qed.

Lemma for_each_cons {A} (x : A) rest body w :
  for_each (x :: rest) body w =
  match body x w with
  | Ok _ w1 => for_each rest body w1
  | Raise e w1 => Raise e w1
  end.
Proof. reflexivity. Qed.

(** ** Directories are made, never unmade *)

Section mkdir_chain.
Implicit Types (f : gmap (list string) node) (k above todo : list string).

Lemma mkdir_chain_keeps above todo f f' k n :
  mkdir_chain above todo f = Some f' → f !! k = Some n → f' !! k = Some n.
Proof.
  revert above f. induction todo as [|c rest IH]; intros above f Hm Hk.
  - by injection Hm as <-.
  - cbn in Hm. destruct (f !! (above ++ [c])) as [[|content]|] eqn:E.
    + by eapply IH.
    + discriminate.
    + eapply IH; [exact Hm|]. rewrite lookup_insert_ne; [done|congruence].
Qed.

Lemma mkdir_chain_adds_dirs above todo f f' k n :
  mkdir_chain above todo f = Some f' → f' !! k = Some n →
  f !! k = Some n ∨ (f !! k = None ∧ n = Dir).
Proof.
  revert above f. induction todo as [|c rest IH]; intros above f Hm Hk.
  - injection Hm as <-. by left.
  - cbn in Hm. destruct (f !! (above ++ [c])) as [[|content]|] eqn:E.
    + by eapply IH.
    + discriminate.
    + destruct (IH _ _ Hm Hk) as [H|[H ->]].
      * destruct (decide (above ++ [c] = k)) as [<-|Hne].
        -- rewrite lookup_insert_eq in H. injection H as <-. by right.
        -- rewrite lookup_insert_ne in H by done. by left.
      * right. split; [|done].
        destruct (decide (above ++ [c] = k)) as [<-|Hne].
        -- by rewrite lookup_insert_eq in H.
        -- by rewrite lookup_insert_ne in H.
Qed.

Lemma mkdir_chain_made above todo f f' i :
  mkdir_chain above todo f = Some f' →
  1 ≤ i ≤ length todo → f' !! (above ++ take i todo) = Some Dir.
Proof.
  revert above f i. induction todo as [|c rest IH]; intros above f i Hm Hi.
  - cbn in Hi. lia.
  - cbn in Hm. destruct i as [|i]; [lia|]. cbn in Hi.
    assert (Hstep : ∀ g, g !! (above ++ [c]) = Some Dir →
              mkdir_chain (above ++ [c]) rest g = Some f' →
              f' !! (above ++ take (S i) (c :: rest)) = Some Dir).
    { intros g Hg Hrec. cbn. destruct i as [|i].
      - rewrite take_0. eapply mkdir_chain_keeps; eauto.
      - replace (above ++ c :: take (S i) rest)
          with ((above ++ [c]) ++ take (S i) rest) by by rewrite <- app_assoc.
        eapply IH; [exact Hrec|lia]. }
    destruct (f !! (above ++ [c])) as [[|content]|] eqn:E.
    + by apply (Hstep f).
    + discriminate.
    + apply (Hstep (<[above ++ [c] := Dir]> f)); [|done].
      apply lookup_insert_eq.
Qed.

Lemma mkdir_chain_succeeds above todo f :
  (∀ i content, 1 ≤ i ≤ length todo →
     f !! (above ++ take i todo) ≠ Some (File content)) →
  is_Some (mkdir_chain above todo f).
Proof.
  revert above f. induction todo as [|c rest IH]; intros above f Hfree.
  - by eexists.
  - cbn.
    assert (Hrest : ∀ g, (∀ k, g !! k = f !! k ∨ g !! k = Some Dir) →
              is_Some (mkdir_chain (above ++ [c]) rest g)).
    { intros g Hg. apply IH. intros i content Hi.
      replace ((above ++ [c]) ++ take i rest)
        with (above ++ take (S i) (c :: rest)) by by rewrite <- app_assoc.
      destruct (Hg (above ++ take (S i) (c :: rest))) as [-> | ->];
        [apply Hfree; cbn; lia | done]. }
    destruct (f !! (above ++ [c])) as [[|content]|] eqn:E.
    + apply Hrest. by left.
    + exfalso. by apply (Hfree 1 content); [cbn; lia|].
    + apply Hrest. intros k.
      destruct (decide (above ++ [c] = k)) as [<-|Hne].
      * right. apply lookup_insert_eq.
      * left. by apply lookup_insert_ne.
Qed.

Lemma mkdir_chain_fails above todo f :
  mkdir_chain above todo f = None →
  ∃ i content, 1 ≤ i ≤ length todo ∧
    f !! (above ++ take i todo) = Some (File content).
Proof.
  revert above f. induction todo as [|c rest IH]; intros above f Hm; [done|].
  cbn in Hm.
  assert (Hrest : ∀ g, (∀ k content, g !! k = Some (File content) →
                          f !! k = Some (File content)) →
            mkdir_chain (above ++ [c]) rest g = None →
            ∃ i content, 1 ≤ i ≤ length (c :: rest) ∧
              f !! (above ++ take i (c :: rest)) = Some (File content)).
  { intros g Hg Hrec. destruct (IH _ _ Hrec) as (i & content & Hi & Hk).
    exists (S i), content. split; [cbn; lia|].
    cbn. rewrite <- app_assoc in Hk. by apply Hg. }
  destruct (f !! (above ++ [c])) as [[|content]|] eqn:E.
  - by apply (Hrest f).
  - exists 1, content. split; [cbn; lia|]. done.
  - apply (Hrest (<[above ++ [c] := Dir]> f)); [|done].
    intros k content Hk.
    destruct (decide (above ++ [c] = k)) as [<-|Hne].
    + by rewrite lookup_insert_eq in Hk.
    + by rewrite lookup_insert_ne in Hk.
Qed.

Lemma mkdir_chain_idle above todo f :
  (∀ i, 1 ≤ i ≤ length todo → f !! (above ++ take i todo) = Some Dir) →
  mkdir_chain above todo f = Some f.
Proof.
  revert above. induction todo as [|c rest IH]; intros above Hall; [done|].
  pose proof (Hall 1 ltac:(cbn; lia)) as H1. cbn in H1 |- *.
  rewrite take_0 in H1. rewrite H1.
  apply IH. intros i Hi.
  rewrite <- app_assoc. apply (Hall (S i)). cbn. lia.
Qed.

End mkdir_chain.

(** ** Following a path as written *)

Section makedirs_walk.
Implicit Types (f : gmap (list string) node) (k cur comps : list string).

Lemma node_at_None f k : node_at f k = None → f !! k = None.
Proof. by destruct k. Qed.

Lemma node_at_insert_ne f k k' n :
  k ≠ k' → node_at (<[k := n]> f) k' = node_at f k'.
Proof. intros Hne. destruct k'; [done|]. cbn. by rewrite lookup_insert_ne. Qed.

Lemma node_at_insert_dir f k : node_at (<[k := Dir]> f) k = Some Dir.
Proof. destruct k; [done|]. cbn. apply lookup_insert_eq. Qed.

Lemma makedirs_walk_keeps cur comps f b f' k n :
  makedirs_walk cur comps f = (b, f') → f !! k = Some n → f' !! k = Some n.
Proof.
  revert cur f. induction comps as [|c rest IH]; intros cur f Hw Hk.
  - by injection Hw as _ <-.
  - cbn [makedirs_walk] in Hw.
    destruct (node_at f (path_step cur c)) as [[|content]|] eqn:E.
    + by eapply IH.
    + by injection Hw as _ <-.
    + eapply IH; [exact Hw|]. apply node_at_None in E.
      rewrite lookup_insert_ne; [done|congruence].
Qed.

Lemma makedirs_walk_adds_dirs cur comps f b f' k n :
  makedirs_walk cur comps f = (b, f') → f' !! k = Some n →
  f !! k = Some n ∨ (f !! k = None ∧ n = Dir).
Proof.
  revert cur f. induction comps as [|c rest IH]; intros cur f Hw Hk.
  - injection Hw as _ <-. by left.
  - cbn [makedirs_walk] in Hw.
    destruct (node_at f (path_step cur c)) as [[|content]|] eqn:E.
    + by eapply IH.
    + injection Hw as _ <-. by left.
    + destruct (IH _ _ Hw Hk) as [H|[H ->]].
      * destruct (decide (path_step cur c = k)) as [<-|Hne].
        -- rewrite lookup_insert_eq in H. injection H as <-. right.
           split; [by apply node_at_None|done].
        -- rewrite lookup_insert_ne in H by done. by left.
      * right. split; [|done].
        destruct (decide (path_step cur c = k)) as [<-|Hne].
        -- by rewrite lookup_insert_eq in H.
        -- by rewrite lookup_insert_ne in H.
Qed.

Lemma makedirs_walk_node_at cur comps f b f' k :
  makedirs_walk cur comps f = (b, f') →
  node_at f k = Some Dir → node_at f' k = Some Dir.
Proof. destruct k; [done|]. cbn. apply makedirs_walk_keeps. Qed.

(** Where the walk has been there is a directory. *)
Lemma makedirs_walk_trail cur comps f f' k :
  makedirs_walk cur comps f = (true, f') →
  k ∈ trail_from cur comps → node_at f' k = Some Dir.
Proof.
  revert cur f. induction comps as [|c rest IH]; intros cur f Hw Hk.
  - by apply elem_of_nil in Hk.
  - cbn [makedirs_walk trail_from] in Hw, Hk.
    destruct (node_at f (path_step cur c)) as [[|content]|] eqn:E; [|done|].
    + apply elem_of_cons in Hk as [->|Hk]; [|by eapply IH].
      by eapply makedirs_walk_node_at.
    + apply elem_of_cons in Hk as [->|Hk]; [|by eapply IH].
      eapply makedirs_walk_node_at; [exact Hw|]. apply node_at_insert_dir.
Qed.

Lemma makedirs_walk_end cur comps f f' :
  makedirs_walk cur comps f = (true, f') → node_at f cur = Some Dir →
  node_at f' (fold_left path_step comps cur) = Some Dir.
Proof.
  revert cur f. induction comps as [|c rest IH]; intros cur f Hw Hcur.
  - by injection Hw as <-.
  - cbn [makedirs_walk fold_left] in Hw |- *.
    destruct (node_at f (path_step cur c)) as [[|content]|] eqn:E; [|done|].
    + by eapply IH.
    + eapply IH; [exact Hw|]. apply node_at_insert_dir.
Qed.

(** The walk gets through exactly when no regular file is where it
    goes. *)
Lemma makedirs_walk_succeeds cur comps f :
  (∀ k content, k ∈ trail_from cur comps →
                node_at f k ≠ Some (File content)) →
  ∃ f', makedirs_walk cur comps f = (true, f').
Proof.
  revert cur f. induction comps as [|c rest IH]; intros cur f Hfree.
  - by eexists.
  - cbn [makedirs_walk trail_from] in Hfree |- *.
    destruct (node_at f (path_step cur c)) as [[|content]|] eqn:E.
    + apply IH. intros k content Hk. apply Hfree. by right.
    + exfalso. apply (Hfree (path_step cur c) content); [by left|done].
    + apply IH. intros k content Hk.
      destruct (decide (path_step cur c = k)) as [<-|Hne].
      * by rewrite node_at_insert_dir.
      * rewrite node_at_insert_ne by done. apply Hfree. by right.
Qed.

Lemma makedirs_walk_blocked cur comps f k content :
  k ∈ trail_from cur comps → node_at f k = Some (File content) →
  ∃ f', makedirs_walk cur comps f = (false, f').
Proof.
  revert cur f. induction comps as [|c rest IH]; intros cur f Hk Hfile.
  - by apply elem_of_nil in Hk.
  - cbn [makedirs_walk trail_from] in Hk |- *.
    destruct (node_at f (path_step cur c)) as [[|old]|] eqn:E.
    + apply elem_of_cons in Hk as [->|Hk]; [congruence|]. by eapply IH.
    + by eexists.
    + apply elem_of_cons in Hk as [->|Hk]; [congruence|].
      eapply IH; [exact Hk|]. rewrite node_at_insert_ne; [done|congruence].
Qed.

Lemma makedirs_walk_idle cur comps f :
  (∀ k, k ∈ trail_from cur comps → node_at f k = Some Dir) →
  makedirs_walk cur comps f = (true, f).
Proof.
  revert cur. induction comps as [|c rest IH]; intros cur Hall; [done|].
  cbn [makedirs_walk trail_from] in Hall |- *.
  rewrite (Hall (path_step cur c)) by by left.
  apply IH. intros k Hk. apply Hall. by right.
Qed.

Lemma removelast_take {A} (l : list A) : removelast l = take (length l - 1) l.
Proof.
  induction l as [|x [|y l] IH]; [done..|].
  change (removelast (x :: y :: l)) with (x :: removelast (y :: l)).
  rewrite IH. cbn. by rewrite Nat.sub_0_r.
Qed.

(** A place above the one a step arrives at is above the one it
    started from. *)
Lemma path_step_prefix cur c i :
  1 ≤ i ≤ length (path_step cur c) →
  take i (path_step cur c) = path_step cur c ∨
  (1 ≤ i ≤ length cur ∧ take i (path_step cur c) = take i cur).
Proof.
  unfold path_step.
  destruct (String.eqb c "" || String.eqb c "."); [by right|].
  destruct (String.eqb c "..").
  - rewrite removelast_take, length_take. intros Hi. right.
    split; [lia|]. rewrite take_take. f_equal. lia.
  - rewrite length_app. cbn. intros Hi.
    destruct (decide (i ≤ length cur)) as [Hle|Hgt].
    + right. split; [lia|]. by rewrite take_app_le.
    + left. apply take_ge. rewrite length_app. cbn. lia.
Qed.

(** After the walk, every place above the one it ends at is a
    directory. *)
Lemma makedirs_walk_prefixes cur comps f f' :
  makedirs_walk cur comps f = (true, f') →
  (∀ i, 1 ≤ i ≤ length cur → f !! take i cur = Some Dir) →
  ∀ i, 1 ≤ i ≤ length (fold_left path_step comps cur) →
       f' !! take i (fold_left path_step comps cur) = Some Dir.
Proof.
  revert cur f. induction comps as [|c rest IH]; intros cur f Hw Hinv.
  - by injection Hw as <-.
  - cbn [makedirs_walk fold_left] in Hw |- *.
    assert (Hnext : ∀ g, node_at g (path_step cur c) = Some Dir →
              (∀ k, f !! k = Some Dir → g !! k = Some Dir) →
              ∀ i, 1 ≤ i ≤ length (path_step cur c) →
                   g !! take i (path_step cur c) = Some Dir).
    { intros g Hg Hfg i Hi.
      destruct (path_step_prefix cur c i Hi) as [-> | [Hi' ->]].
      - destruct (path_step cur c); [cbn in Hi; lia|done].
      - by apply Hfg, Hinv. }
    destruct (node_at f (path_step cur c)) as [[|content]|] eqn:E; [|done|].
    + eapply IH; [exact Hw|]. by apply Hnext.
    + eapply IH; [exact Hw|]. apply Hnext; [apply node_at_insert_dir|].
      intros k Hk. apply node_at_None in E.
      rewrite lookup_insert_ne; [done|congruence].
Qed.

(** The walk ends at the place the normalised path names. *)
Lemma path_step_norm_step acc comp :
  Forall (λ c, c ≠ ".."%string) acc →
  posixpath.norm_step 1 acc comp = path_step acc comp ∧
  Forall (λ c, c ≠ ".."%string) (path_step acc comp).
Proof.
  intros Hacc. unfold posixpath.norm_step, path_step.
  destruct (String.eqb comp "" || String.eqb comp "."); [done|].
  destruct (String.eqb_spec comp "..") as [->|Hne]; cbn.
  - rewrite bool_decide_eq_false_2.
    + split; [done|]. rewrite removelast_take. by apply Forall_take.
    + intros (l & ->)%last_Some. apply Forall_app in Hacc as [_ Hl].
      by inversion Hl.
  - split; [done|]. apply Forall_app. split; [done|]. by apply Forall_singleton.
Qed.

Lemma fold_path_step_norm_comps comps :
  fold_left path_step comps [] = posixpath.norm_comps 1 comps.
Proof.
  unfold posixpath.norm_comps.
  assert (H : ∀ acc, Forall (λ c, c ≠ ".."%string) acc →
            fold_left path_step comps acc
            = fold_left (posixpath.norm_step 1) comps acc); [|by apply H].
  induction comps as [|c rest IH]; intros acc Hacc; [done|]. cbn [fold_left].
  destruct (path_step_norm_step acc c Hacc) as [-> Hnext]. by apply IH.
Qed.

End makedirs_walk.

Lemma evolves_refl w : evolves w w.
Proof. split; eauto. by exists []. Qed.

Lemma evolves_trans w1 w2 w3 : evolves w1 w2 → evolves w2 w3 → evolves w1 w3.
Proof.
  intros [] []. split; try congruence; eauto.
  - intros k c Hk. edestruct ev_files0 as [c' Hc']; eauto.
  - destruct ev_requests0 as [l1 H1], ev_requests1 as [l2 H2].
    exists (l2 ++ l1). by rewrite H2, H1, app_assoc.
Qed.

Lemma evolves_fs_key w w' path : evolves w w' → fs_key w' path = fs_key w path.
Proof. intros Hev. unfold fs_key. by rewrite (ev_cwd _ _ Hev). Qed.

Lemma evolves_isdir w w' path :
  evolves w w' → isdir w path = true → isdir w' path = true.
Proof.
  intros Hev. unfold isdir. rewrite (evolves_fs_key _ _ _ Hev).
  destruct (fs_key w path) as [|c k]; [done|]. cbn.
  destruct (fs w !! (c :: k)) as [[|content]|] eqn:E; try done.
  by rewrite (ev_dirs _ _ Hev _ E).
Qed.

Lemma evolves_isfile w w' path :
  evolves w w' → isfile w path = true → isfile w' path = true.
Proof.
  intros Hev. unfold isfile. rewrite (evolves_fs_key _ _ _ Hev).
  destruct (fs_key w path) as [|c k]; [done|]. cbn.
  destruct (fs w !! (c :: k)) as [[|content]|] eqn:E; try done.
  destruct (ev_files _ _ Hev _ _ E) as [c' ->]. done.
Qed.

Lemma steady_ret {A} (a : A) : steady (ret a).
Proof. intros w. apply evolves_refl. Qed.

Lemma steady_raise {A} e : steady (@raise A e).
Proof. intros w. apply evolves_refl. Qed.

Lemma steady_get_world : steady get_world.
Proof. intros w. apply evolves_refl. Qed.

Lemma steady_bind {A B} (m : Py A) (k : A → Py B) :
  steady m → (∀ a, steady (k a)) → steady (bind m k).
Proof.
  intros Hm Hk w. unfold bind. specialize (Hm w).
  destruct (m w) as [a w1|e w1]; [|done].
  eapply evolves_trans; [exact Hm | apply Hk].
Qed.

Lemma steady_for_each {A} (l : list A) body :
  (∀ x, steady (body x)) → steady (for_each l body).
Proof.
  intros Hbody. induction l as [|x rest IH]; [apply steady_ret|].
  apply steady_bind; auto.
Qed.

Lemma steady_read_text path : steady (read_text path).
Proof.
  intros w. unfold read_text.
  destruct (node_at _ _) as [[|content]|]; apply evolves_refl.
Qed.

Lemma steady_http_get url : steady (http_get url).
Proof.
  intros w. unfold http_get.
  destruct (remote w !! url); (split; cbn; eauto; by exists [url]).
Qed.

Lemma evolves_set_fs w f :
  (∀ k n, fs w !! k = Some n → f !! k = Some n) → evolves w (set_fs f w).
Proof. intros Hf. split; cbn; eauto. by exists []. Qed.

Lemma steady_makedirs name : steady (makedirs name).
Proof.
  intros w. unfold makedirs.
  destruct (String.eqb name ""); [apply evolves_refl|].
  destruct (makedirs_walk _ _ _) as [b f] eqn:E.
  assert (evolves w (set_fs f w)); [|by destruct b].
  apply evolves_set_fs. intros k n. by eapply makedirs_walk_keeps.
Qed.

Lemma makedirs_Ok name w w' :
  makedirs name w = Ok tt w' →
  ∃ f, makedirs_walk []
         (pystr.split_sep (posixpath.abs_join (cwd w) name)) (fs w)
       = (true, f) ∧ w' = set_fs f w.
Proof.
  unfold makedirs. destruct (String.eqb name ""); [done|].
  destruct (makedirs_walk _ _ _) as [[] f]; [|done]. intros [= <-]. eauto.
Qed.

Lemma makedirs_Ok_isdir name w w' :
  makedirs name w = Ok tt w' → isdir w' name = true.
Proof.
  intros (f & Hwalk & ->)%makedirs_Ok.
  unfold isdir. change (fs_key (set_fs f w) name) with (fs_key w name).
  change (fs (set_fs f w)) with f. unfold fs_key.
  rewrite <- fold_path_step_norm_comps.
  by rewrite (makedirs_walk_end _ _ _ _ Hwalk).
Qed.

Lemma elem_of_way w path k :
  k ∈ way w path ↔
  ∃ i, 1 ≤ i ≤ length (fs_key w path) ∧ k = take i (fs_key w path).
Proof.
  unfold way. rewrite list_elem_of_fmap. split.
  - intros (i & -> & Hi%elem_of_seq). exists i. split; [lia|done].
  - intros (i & Hi & ->). exists i. split; [done|]. apply elem_of_seq. lia.
Qed.

(** After [makedirs] has returned, the places above the one the name
    stands for are directories, and so is every place the name goes
    through as it is written. *)
Lemma makedirs_Ok_way name w w' :
  makedirs name w = Ok tt w' → ∀ k, k ∈ way w name → fs w' !! k = Some Dir.
Proof.
  intros (f & Hwalk & ->)%makedirs_Ok k (i & Hi & ->)%elem_of_way.
  unfold fs_key in *. rewrite <- fold_path_step_norm_comps in *.
  apply (makedirs_walk_prefixes _ _ _ _ Hwalk); [|done].
  cbn. intros j Hj. lia.
Qed.

Lemma makedirs_Ok_trail name w w' :
  makedirs name w = Ok tt w' →
  ∀ k, k ∈ trail w name → node_at (fs w') k = Some Dir.
Proof.
  intros (f & Hwalk & ->)%makedirs_Ok k Hk.
  by apply (makedirs_walk_trail _ _ _ _ _ Hwalk).
Qed.

(** [makedirs] returns when no regular file is where the name goes, and
    raises when one is. *)
Lemma makedirs_returns name w :
  name ≠ ""%string →
  (∀ k content, k ∈ trail w name → node_at (fs w) k ≠ Some (File content)) →
  ∃ w', makedirs name w = Ok tt w'.
Proof.
  intros Hne%String.eqb_neq Hfree. unfold makedirs. rewrite Hne.
  destruct (makedirs_walk_succeeds _ _ _ Hfree) as [f ->]. eauto.
Qed.

Lemma makedirs_blocked name w k content :
  k ∈ trail w name → node_at (fs w) k = Some (File content) →
  ∃ w', makedirs name w = Raise (OSError name) w'.
Proof.
  intros Hk Hfile. unfold makedirs. destruct (String.eqb name ""); [eauto|].
  destruct (makedirs_walk_blocked _ _ _ _ _ Hk Hfile) as [f ->]. eauto.
Qed.

(** [makedirs] has nothing to do when every place the name goes through
    is a directory already. *)
Lemma makedirs_idle name w :
  name ≠ ""%string →
  (∀ k, k ∈ trail w name → node_at (fs w) k = Some Dir) →
  makedirs name w = Ok tt w.
Proof.
  intros Hne%String.eqb_neq Hall. unfold makedirs. rewrite Hne.
  rewrite (makedirs_walk_idle _ _ _ Hall). by destruct w.
Qed.

Lemma makedirs_Raise name w e w' :
  makedirs name w = Raise e w' → e = OSError name.
Proof.
  unfold makedirs. destruct (String.eqb name ""); [by intros [= <- _]|].
  destruct (makedirs_walk _ _ _) as [[] f]; [done|]. by intros [= <- _].
Qed.

(** Returning or raising, [makedirs] removes nothing and adds nothing
    but directories. *)
Lemma makedirs_fs_keeps name w k n :
  fs w !! k = Some n → fs (final (makedirs name w)) !! k = Some n.
Proof.
  unfold makedirs. destruct (String.eqb name ""); [done|].
  destruct (makedirs_walk _ _ _) as [b f] eqn:E. intros Hk.
  assert (f !! k = Some n) by by eapply makedirs_walk_keeps.
  by destruct b.
Qed.

Lemma makedirs_adds_dirs name w k n :
  fs (final (makedirs name w)) !! k = Some n → fs w !! k = Some n ∨ n = Dir.
Proof.
  unfold makedirs. destruct (String.eqb name ""); [by left|].
  destruct (makedirs_walk _ _ _) as [b f] eqn:E. intros Hk.
  assert (f !! k = Some n) as Hf by by destruct b.
  destruct (makedirs_walk_adds_dirs _ _ _ _ _ _ _ E Hf) as [?|[_ ?]]; auto.
Qed.

Lemma steady_write_member path content : steady (write_member path content).
Proof.
  intros w. unfold write_member.
  destruct (mkdir_chain _ _ _) as [f|] eqn:E; [|apply evolves_refl].
  assert (Hkeep : ∀ k n, fs w !! k = Some n → f !! k = Some n)
    by (intros k n; by eapply mkdir_chain_keeps).
  set (key := fs_key w path).
  destruct (node_at f key) as [[|old]|] eqn:En; cbn;
    [by apply evolves_set_fs | |].
  all: split; cbn; eauto; try (by exists []).
  all: try (intros k Hk; apply Hkeep in Hk as Hk';
       destruct (decide (key = k)) as [<-|Hne];
       [ destruct key; cbn in En; congruence
       | by rewrite lookup_insert_ne ]).
  all: intros k c Hk; apply Hkeep in Hk;
       destruct (decide (key = k)) as [<-|Hne];
       [ rewrite lookup_insert_eq; eauto
       | rewrite lookup_insert_ne by done; eauto ].
Qed.

(** ** The manifest synchronizer *)

Lemma keeps_refl w : keeps w w.
Proof. by split. Qed.

Lemma keeps_file_content w0 w path content :
  keeps w0 w → file_content w0 path = Some content →
  file_content w path = Some content.
Proof.
  intros [Hcwd Hfiles]. unfold file_content, fs_key. rewrite Hcwd.
  destruct (posixpath.norm_comps _ _) as [|c k]; [done|]. cbn.
  destruct (fs w0 !! (c :: k)) as [[|old]|] eqn:E; try done.
  by rewrite (Hfiles _ _ E).
Qed.

Lemma isfile_file_content w path :
  isfile w path = true ↔ is_Some (file_content w path).
Proof.
  unfold isfile, file_content.
  destruct (node_at _ _) as [[|content]|]; split; try done;
    by intros [? ?].
Qed.

Lemma read_text_Ok path w text w' :
  read_text path w = Ok text w' ↔ w' = w ∧ file_content w path = Some text.
Proof.
  unfold read_text, file_content.
  destruct (node_at _ _) as [[|content]|]; split; try done;
    try (by intros [_ ?]).
  - by intros [= -> ->].
  - by intros [-> [= ->]].
Qed.

Lemma missing_nil w destination names :
  missing w destination names = [] ↔
  ∀ name, name ∈ names →
          isfile w (posixpath.join destination name) = true.
Proof.
  unfold missing. split.
  - intros Hnil name Hin.
    destruct (isfile w _) eqn:E; [done|].
    by destruct (filter_nil_not_elem_of _ _ name Hnil E).
  - intros Hall. induction names as [|name rest IH]; [done|].
    rewrite filter_cons_False.
    + apply IH. intros n Hn. apply Hall. by right.
    + rewrite Hall; [done|by left].
Qed.

Lemma write_member_keeps w0 w path content :
  keeps w0 w → isfile w0 path = false →
  keeps w0 (final (write_member path content w)).
Proof.
  intros [Hcwd Hfiles] Hfree. unfold write_member.
  destruct (mkdir_chain _ _ _) as [f|] eqn:E; [|by split].
  assert (Hkeep : ∀ k old, fs w0 !! k = Some (File old) →
                           f !! k = Some (File old)).
  { intros k old Hk. eapply mkdir_chain_keeps; eauto. }
  assert (Hkey : fs_key w path = fs_key w0 path)
    by (unfold fs_key; by rewrite Hcwd).
  destruct (node_at f (fs_key w path)) as [[|old]|] eqn:En; cbn;
    [by split | |].
  all: split; [done|]; intros k c Hk; cbn;
    (rewrite lookup_insert_ne; [by apply Hkeep|]);
    intros <-; unfold isfile in Hfree; rewrite <- Hkey in Hfree;
    destruct (fs_key w path); cbn in *; [congruence|];
    by rewrite Hk in Hfree.
Qed.

Lemma write_member_Ok path content w w' :
  write_member path content w = Ok tt w' →
  file_content w' path = Some content.
Proof.
  unfold write_member, file_content.
  destruct (mkdir_chain _ _ _) as [f|]; [|done].
  destruct (node_at f (fs_key w path)) as [[|old]|] eqn:En; [done| |].
  all: intros [= <-]; unfold fs_key in *; cbn;
    destruct (posixpath.norm_comps _ _); cbn in *; [congruence|];
    by rewrite lookup_insert_eq.
Qed.

Section synchronizer.
Context (content_hash : string → string).
Context (unzip : string → option (list (string * string))).

Lemma steady_extract members destination selected :
  steady (extract members destination selected).
Proof.
  apply steady_for_each. intros name.
  destruct (member name members);
    [apply steady_write_member | apply steady_raise].
Qed.

Lemma steady_manifest_check_download destination manifest_path url hash_ :
  steady (_manifest_check_download content_hash unzip destination manifest_path
                                   url hash_).
Proof.
  unfold _manifest_check_download.
  apply steady_bind; [apply steady_read_text|]. intros text.
  apply steady_bind; [apply steady_get_world|]. intros w.
  case_bool_decide; [apply steady_ret|].
  apply steady_bind; [apply steady_http_get|]. intros archive.
  destruct (negb _); [apply steady_raise|].
  destruct (unzip archive); [apply steady_extract | apply steady_raise].
Qed.

Lemma extract_keeps members destination selected w0 w :
  keeps w0 w →
  (∀ name, name ∈ selected →
           isfile w0 (posixpath.join destination name) = false) →
  keeps w0 (final (extract members destination selected w)).
Proof.
  revert w. induction selected as [|name rest IH]; intros w Hk Hfree;
    [done|].
  unfold extract. rewrite for_each_cons.
  assert (Hrest : ∀ w1, keeps w0 w1 →
            keeps w0 (final (extract members destination rest w1))).
  { intros w1 H1. apply IH; [done|]. intros n Hn. apply Hfree. by right. }
  destruct (member name members) as [content|]; [|done].
  pose proof (write_member_keeps w0 w (posixpath.join destination name)
                content Hk (Hfree name ltac:(by left))) as Hw.
  destruct (write_member _ _ w) as [[] w1|e w1]; [|done].
  by apply Hrest.
Qed.

Lemma extract_Ok_files members destination selected w w' :
  extract members destination selected w = Ok tt w' →
  ∀ name, name ∈ selected →
          isfile w' (posixpath.join destination name) = true.
Proof.
  revert w. induction selected as [|name rest IH]; intros w Hrun n Hn;
    [by apply elem_of_nil in Hn|].
  unfold extract in Hrun. rewrite for_each_cons in Hrun.
  destruct (member name members) as [content|]; [|done].
  destruct (write_member _ _ w) as [[] w1|e w1] eqn:Ew; [|done].
  apply elem_of_cons in Hn as [->|Hn]; [|by eapply IH].
  pose proof (steady_extract members destination rest w1) as Hev.
  unfold extract in Hev. rewrite Hrun in Hev.
  apply (evolves_isfile _ _ _ Hev).
  apply isfile_file_content. rewrite (write_member_Ok _ _ _ _ Ew). by eexists.
Qed.

(** The ways a run of the synchronizer returns: there was nothing to
    do, or the archive was fetched, passed the check and was unpacked. *)
Lemma manifest_check_download_Ok destination manifest_path url hash_ w w' :
  _manifest_check_download content_hash unzip destination manifest_path
    url hash_ w
  = Ok tt w' →
  ∃ text, file_content w manifest_path = Some text ∧
    let need := missing w destination (pystr.lines text) in
    (need = [] ∧ w' = w) ∨
    (need ≠ [] ∧ ∃ archive members,
       remote w !! url = Some archive ∧ content_hash archive = hash_ ∧
       unzip archive = Some members ∧
       extract members destination need (log_request url w) = Ok tt w').
Proof.
  unfold _manifest_check_download. intros Hrun.
  apply bind_Ok_inv in Hrun as (text & w1 & Hread & Hrun).
  apply read_text_Ok in Hread as [-> Htext]. exists text. split; [done|].
  cbn in Hrun. unfold bind, get_world in Hrun. cbn.
  case_bool_decide as Hneed.
  - left. by injection Hrun as <-.
  - right. split; [done|]. unfold http_get in Hrun.
    destruct (remote w !! url) as [archive|]; [|done].
    destruct (String.eqb (content_hash archive) hash_) eqn:Eh; [|done].
    cbn in Hrun.
    apply String.eqb_eq in Eh.
    destruct (unzip archive) as [members|] eqn:Eu; [|done].
    by exists archive, members.
Qed.

Lemma manifest_check_download_complete destination manifest_path url hash_
    w text :
  file_content w manifest_path = Some text →
  missing w destination (pystr.lines text) = [] →
  _manifest_check_download content_hash unzip destination manifest_path
    url hash_ w
  = Ok tt w.
Proof.
  intros Htext Hnil. unfold _manifest_check_download.
  erewrite bind_Ok; [|by apply read_text_Ok].
  unfold bind, get_world. rewrite Hnil. done.
Qed.

Lemma manifest_check_download_keeps destination manifest_path url hash_ w :
  keeps w (final (_manifest_check_download content_hash unzip destination
                    manifest_path url hash_ w)).
Proof.
  unfold _manifest_check_download, bind, get_world, read_text.
  destruct (node_at _ _) as [[|text]|]; try apply keeps_refl.
  case_bool_decide; [apply keeps_refl|]. unfold http_get.
  destruct (remote w !! url) as [archive|]; [|by split].
  destruct (negb _); [by split|].
  destruct (unzip archive) as [members|]; [|by split].
  apply extract_keeps; [by split|].
  intros name Hin. unfold missing in Hin.
  by apply list_elem_of_filter in Hin as [? _].
Qed.

Lemma manifest_check_download_fills destination manifest_path url hash_
    w w' text :
  file_content w manifest_path = Some text →
  _manifest_check_download content_hash unzip destination manifest_path
    url hash_ w
  = Ok tt w' →
  ∀ name, name ∈ pystr.lines text →
          isfile w' (posixpath.join destination name) = true.
Proof.
  intros Htext Hrun name Hin.
  pose proof (steady_manifest_check_download destination manifest_path
                url hash_ w) as Hev. rewrite Hrun in Hev. cbn in Hev.
  destruct (isfile w (posixpath.join destination name)) eqn:E;
    [by eapply evolves_isfile|].
  apply manifest_check_download_Ok in Hrun as (text' & Htext' & Hcases).
  assert (text' = text) as -> by congruence. cbn in Hcases.
  destruct Hcases as [[Hnil ->]|(_ & archive & members & _ & _ & _ & Hex)].
  - pose proof (proj1 (missing_nil _ _ _) Hnil name Hin). congruence.
  - eapply extract_Ok_files; [exact Hex|].
    unfold missing. by apply list_elem_of_filter.
Qed.

End synchronizer.

(** ** Facts about paths *)

Section paths.
Import pystr posixpath.
Implicit Types (s a b r : string) (c : ascii).

Local Arguments String.append : simpl nomatch.

Lemma append_nil_r s : s +:+ "" = s.
Proof. induction s as [|c s IH]; cbn; [done|]. by rewrite IH. Qed.

Lemma append_assoc a b s : (a +:+ b) +:+ s = a +:+ (b +:+ s).
Proof. induction a as [|c a IH]; cbn; [done|]. by rewrite IH. Qed.

Lemma contains_sep_app a b :
  contains_sep (a +:+ b) = contains_sep a || contains_sep b.
Proof.
  induction a as [|c a IH]; cbn; [done|]. rewrite IH. by rewrite orb_assoc.
Qed.

Lemma all_sep_app a b : all_sep (a +:+ b) = all_sep a && all_sep b.
Proof.
  induction a as [|c a IH]; cbn; [done|]. rewrite IH. by rewrite andb_assoc.
Qed.

Lemma endswith_sep_app a b : b ≠ "" → endswith_sep (a +:+ b) = endswith_sep b.
Proof.
  intros Hb. induction a as [|c a IH]; cbn; [done|].
  destruct (a +:+ b) eqn:E; [|done].
  destruct a; cbn in E; [congruence|discriminate].
Qed.

Lemma endswith_sep_contains s : endswith_sep s = true → contains_sep s = true.
Proof.
  induction s as [|c s IH]; cbn; [done|].
  destruct s; [by intros ->|]. intros H. rewrite (IH H). apply orb_true_r.
Qed.

Lemma all_sep_endswith s : s ≠ "" → all_sep s = true → endswith_sep s = true.
Proof.
  induction s as [|c s IH]; cbn; [done|]. intros _ [Hc Hs]%andb_true_iff.
  destruct s; [done|]. by apply IH.
Qed.

Lemma upto_last_sep_plain s : contains_sep s = false → upto_last_sep s = "".
Proof.
  destruct s as [|c s]; cbn; [done|]. by intros ->.
Qed.

Lemma upto_last_sep_app a b :
  contains_sep b = false → upto_last_sep (a +:+ String "/" b) = a +:+ "/".
Proof.
  intros Hb. induction a as [|c a IH]; cbn.
  - by rewrite (upto_last_sep_plain _ Hb).
  - rewrite IH, contains_sep_app. cbn. by rewrite !orb_true_r.
Qed.

Lemma upto_last_sep_all a b :
  all_sep a = true → contains_sep b = false → upto_last_sep (a +:+ b) = a.
Proof.
  intros Ha Hb. induction a as [|c a IH]; cbn.
  - by apply upto_last_sep_plain.
  - cbn in Ha. apply andb_true_iff in Ha as [-> Ha]. cbn. by rewrite IH.
Qed.

Lemma rstrip_sep_app r :
  r ≠ "" → endswith_sep r = false → rstrip_sep (r +:+ "/") = r.
Proof.
  induction r as [|c r IH]; [done|]. intros _ Hend. cbn in *.
  destruct r as [|d r].
  - cbn. by rewrite Hend.
  - rewrite IH by done. done.
Qed.

Lemma split_sep_plain s : Forall (λ p, contains_sep p = false) (split_sep s).
Proof.
  induction s as [|c s IH]; cbn; [by repeat constructor|].
  destruct (Ascii.eqb c "/") eqn:Ec; [by constructor|].
  destruct (split_sep s) as [|h t]; [repeat constructor; cbn; by rewrite Ec|].
  inversion_clear IH as [|? ? Hh Ht]. constructor; [|done].
  cbn. by rewrite Ec, Hh.
Qed.

Lemma Forall_removelast {A} (P : A → Prop) (l : list A) :
  Forall P l → Forall P (removelast l).
Proof.
  induction 1 as [|x l Hx Hl IH]; cbn; [constructor|].
  destruct l; [constructor|]. by constructor.
Qed.

Lemma norm_step_good initial acc comp :
  Forall good acc → contains_sep comp = false →
  Forall good (norm_step initial acc comp).
Proof.
  intros Hacc Hcomp. unfold norm_step.
  destruct (String.eqb comp "") eqn:E; cbn; [done|].
  apply String.eqb_neq in E.
  destruct (String.eqb comp "."); [done|].
  destruct (_ || _); [|by apply Forall_removelast].
  apply Forall_app. split; [done|]. by repeat constructor.
Qed.

Lemma fold_norm_step_good initial comps acc :
  Forall good acc → Forall (λ p, contains_sep p = false) comps →
  Forall good (fold_left (norm_step initial) comps acc).
Proof.
  revert acc. induction comps as [|comp comps IH]; intros acc Hacc Hcomps;
    cbn; [done|].
  inversion_clear Hcomps. apply IH; [|done]. by apply norm_step_good.
Qed.

Lemma norm_comps_good initial s :
  Forall good (norm_comps initial (split_sep s)).
Proof.
  apply fold_norm_step_good; [constructor | apply split_sep_plain].
Qed.

Lemma concat_good comps :
  Forall good comps → comps ≠ [] →
  String.concat "/" comps ≠ "" ∧ endswith_sep (String.concat "/" comps) = false.
Proof.
  induction 1 as [|x rest [Hx Hsep] Hrest IH]; [done|]. intros _.
  destruct rest as [|y rest].
  - cbn. split; [done|].
    destruct (endswith_sep x) eqn:E; [|done].
    apply endswith_sep_contains in E. congruence.
  - destruct IH as [Hne Hend]; [done|].
    change (String.concat "/" (x :: y :: rest))
      with (x +:+ "/" +:+ String.concat "/" (y :: rest)).
    split.
    + destruct x; [done|]. discriminate.
    + rewrite endswith_sep_app.
      * by rewrite endswith_sep_app.
      * discriminate.
Qed.

Lemma isabs_nonempty s : isabs s = true → String.eqb s "" = false.
Proof. by destruct s. Qed.

Lemma normpath_tidy s : isabs s = true → tidy (normpath s).
Proof.
  intros Habs. unfold normpath. rewrite (isabs_nonempty _ Habs).
  exists (initial_slashes s), (norm_comps (initial_slashes s) (split_sep s)).
  assert (Hk : initial_slashes s = 1 ∨ initial_slashes s = 2).
  { unfold initial_slashes. unfold isabs in Habs. rewrite Habs.
    destruct (_ && _); auto. }
  split; [done|]. split; [apply norm_comps_good|].
  by destruct Hk as [-> | ->].
Qed.

Lemma tidy_isabs r : tidy r → isabs r = true.
Proof.
  intros (k & comps & [-> | ->] & _ & ->); reflexivity.
Qed.

Lemma abs_join_isabs cwd s : isabs cwd = true → isabs (abs_join cwd s) = true.
Proof.
  intros Hcwd. unfold abs_join. destruct (isabs s) eqn:E; [done|].
  unfold join. unfold isabs in E. rewrite E.
  destruct cwd as [|c cwd]; [done|].
  destruct (_ || _); exact Hcwd.
Qed.

Lemma abspath_tidy cwd s : isabs cwd = true → tidy (abspath cwd s).
Proof. intros. by apply normpath_tidy, abs_join_isabs. Qed.

(** The parent of a child of a normalised absolute directory is that
    directory. *)
Lemma dirname_join_tidy r b :
  tidy r → startswith b "/" = false → contains_sep b = false →
  dirname (join r b) = r.
Proof.
  intros (k & comps & Hk & Hgood & ->) Hb Hplain.
  assert (Hsl : slashes k ≠ "" ∧ all_sep (slashes k) = true)
    by (by destruct Hk as [-> | ->]).
  destruct Hsl as [Hsl_ne Hsl_all].
  unfold join. rewrite Hb.
  destruct comps as [|x rest].
  - assert (slashes k +:+ String.concat "/" [] = slashes k) as ->
      by (by destruct Hk as [-> | ->]).
    rewrite (all_sep_endswith _ Hsl_ne Hsl_all), orb_true_r.
    unfold dirname. rewrite (upto_last_sep_all _ _ Hsl_all Hplain).
    by rewrite Hsl_all, andb_false_r.
  - destruct (concat_good (x :: rest) Hgood) as [Hne Hend]; [done|].
    set (body := String.concat "/" (x :: rest)) in *.
    assert (Hr_end : endswith_sep (slashes k +:+ body) = false)
      by (by rewrite endswith_sep_app).
    assert (Hr_ne : slashes k +:+ body ≠ "")
      by (destruct Hk as [-> | ->]; discriminate).
    rewrite Hr_end, orb_false_r.
    destruct (String.eqb_spec (slashes k +:+ body) "") as [|_]; [done|].
    unfold dirname.
    change ("/" +:+ b) with (String "/" b).
    rewrite (upto_last_sep_app _ _ Hplain).
    rewrite all_sep_app.
    destruct (all_sep (slashes k +:+ body)) eqn:Eall.
    { apply all_sep_endswith in Eall; [congruence|done]. }
    destruct (String.eqb_spec ((slashes k +:+ body) +:+ "/") "") as [E|_].
    { destruct (slashes k +:+ body); discriminate. }
    cbn. by apply rstrip_sep_app.
Qed.

(** *** Normalising twice, and children of a normalised directory *)

Lemma split_sep_single a : contains_sep a = false → split_sep a = [a].
Proof.
  induction a as [|c a IH]; cbn; [done|].
  intros [Hc Ha]%orb_false_iff. rewrite Hc, (IH Ha). done.
Qed.

Lemma split_sep_app a b :
  split_sep (a +:+ String "/" b) = split_sep a ++ split_sep b.
Proof.
  induction a as [|c a IH]; cbn; [done|].
  rewrite IH. destruct (Ascii.eqb c "/"); [done|].
  destruct (split_sep a) eqn:E; [|done].
  by destruct a; cbn in E; repeat case_match.
Qed.

Lemma split_sep_concat comps :
  Forall good comps → comps ≠ [] →
  split_sep (String.concat "/" comps) = comps.
Proof.
  induction 1 as [|x rest [_ Hx] Hrest IH]; [done|]. intros _.
  destruct rest as [|y rest]; [by apply split_sep_single|].
  change (String.concat "/" (x :: y :: rest))
    with (x +:+ String "/" (String.concat "/" (y :: rest))).
  rewrite split_sep_app, (split_sep_single _ Hx), IH; done.
Qed.

Lemma norm_step_settled initial acc comp :
  initial ≠ 0 → Forall settled acc → contains_sep comp = false →
  Forall settled (norm_step initial acc comp).
Proof.
  intros Hinit Hacc Hcomp. unfold norm_step.
  destruct (String.eqb_spec comp "") as [|Hne]; cbn; [done|].
  destruct (String.eqb_spec comp ".") as [|Hdot]; [done|].
  destruct (String.eqb_spec comp "..") as [->|Hup]; cbn.
  - destruct initial; [done|]. cbn.
    case_bool_decide as Hlast; [|by apply Forall_removelast].
    apply last_Some in Hlast as [front ->].
    apply Forall_app in Hacc as [_ Hacc].
    by inversion_clear Hacc as [|? ? (_ & _ & ?)].
  - apply Forall_app. split; [done|]. by repeat constructor.
Qed.

Lemma fold_norm_step_settled initial comps acc :
  initial ≠ 0 → Forall settled acc →
  Forall (λ p, contains_sep p = false) comps →
  Forall settled (fold_left (norm_step initial) comps acc).
Proof.
  intros Hinit. revert acc.
  induction comps as [|comp comps IH]; intros acc Hacc Hcomps; cbn; [done|].
  inversion_clear Hcomps. apply IH; [|done]. by apply norm_step_settled.
Qed.

Lemma norm_comps_settled initial s :
  initial ≠ 0 → Forall settled (norm_comps initial (split_sep s)).
Proof.
  intros. apply fold_norm_step_settled; [done|constructor|].
  apply split_sep_plain.
Qed.

Lemma norm_step_settled_append acc comp :
  settled comp → norm_step 1 acc comp = acc ++ [comp].
Proof.
  intros ([Hne _] & Hdot & Hup). unfold norm_step.
  apply String.eqb_neq in Hne, Hdot, Hup. by rewrite Hne, Hdot, Hup.
Qed.

Lemma fold_norm_step_append comps acc :
  Forall settled comps → fold_left (norm_step 1) comps acc = acc ++ comps.
Proof.
  intros Hcomps. revert acc.
  induction Hcomps as [|comp comps Hcomp _ IH]; intros acc.
  - cbn. by rewrite app_nil_r.
  - change (fold_left (norm_step 1) (comp :: comps) acc)
      with (fold_left (norm_step 1) comps (norm_step 1 acc comp)).
    by rewrite IH, norm_step_settled_append, <- app_assoc.
Qed.

Lemma settled_good comps : Forall settled comps → Forall good comps.
Proof. induction 1 as [|? ? [? _]]; by constructor. Qed.

(** The components of a tidy path are the ones it was made of. *)
Lemma norm_comps_tidy k comps acc :
  k = 1 ∨ k = 2 → Forall settled comps →
  fold_left (norm_step 1)
    (split_sep (slashes k +:+ String.concat "/" comps)) acc
  = acc ++ comps.
Proof.
  intros Hk Hcomps.
  assert (Hbody : fold_left (norm_step 1)
                    (split_sep (String.concat "/" comps)) acc = acc ++ comps).
  { destruct comps as [|x rest]; [by rewrite app_nil_r|].
    rewrite split_sep_concat; [|by apply settled_good|done].
    by apply fold_norm_step_append. }
  by destruct Hk as [-> | ->].
Qed.

Lemma normpath_settled s :
  isabs s = true →
  ∃ k, (k = 1 ∨ k = 2) ∧
       normpath s
       = slashes k +:+ String.concat "/" (norm_comps 1 (split_sep s)).
Proof.
  intros Habs. unfold normpath. rewrite (isabs_nonempty _ Habs).
  assert (Hk : initial_slashes s = 1 ∨ initial_slashes s = 2).
  { unfold initial_slashes. unfold isabs in Habs. rewrite Habs.
    destruct (_ && _); auto. }
  exists (initial_slashes s). split; [done|].
  by destruct Hk as [-> | ->].
Qed.

(** Normalising a normalised absolute path changes nothing. *)
Lemma norm_comps_normpath s :
  isabs s = true →
  norm_comps 1 (split_sep (normpath s)) = norm_comps 1 (split_sep s).
Proof.
  intros Habs. destruct (normpath_settled s Habs) as (k & Hk & ->).
  unfold norm_comps at 1.
  by rewrite norm_comps_tidy; [|done|apply norm_comps_settled].
Qed.

(** The components of a child of a normalised absolute directory. *)
Lemma norm_comps_child s b :
  isabs s = true → settled b →
  norm_comps 1 (split_sep (join (normpath s) b))
  = norm_comps 1 (split_sep s) ++ [b].
Proof.
  intros Habs Hb. destruct (normpath_settled s Habs) as (k & Hk & ->).
  pose proof (norm_comps_settled 1 s ltac:(done)) as Hset.
  set (comps := norm_comps 1 (split_sep s)) in *.
  destruct Hb as ([Hne Hplain] & Hdot & Hup).
  assert (Hstart : startswith b "/" = false).
  { destruct b as [|c b]; [done|]. cbn in *.
    apply orb_false_iff in Hplain as [-> _]. done. }
  assert (Hb1 : norm_step 1 comps b = comps ++ [b])
    by (by apply norm_step_settled_append).
  unfold join. rewrite Hstart.
  destruct comps as [|x rest] eqn:Ec.
  - destruct Hk as [-> | ->]; cbn;
      rewrite (split_sep_single _ Hplain); cbn -[norm_step]; exact Hb1.
  - destruct (concat_good (x :: rest)) as [Hbne Hend];
      [by apply settled_good|done|].
    set (body := String.concat "/" (x :: rest)) in *.
    assert (Hr_end : endswith_sep (slashes k +:+ body) = false)
      by (by rewrite endswith_sep_app).
    rewrite Hr_end, orb_false_r.
    destruct (String.eqb_spec (slashes k +:+ body) "") as [E|_].
    { destruct Hk as [-> | ->]; discriminate. }
    change ("/" +:+ b) with (String "/" b).
    rewrite split_sep_app, (split_sep_single _ Hplain).
    unfold norm_comps. rewrite fold_left_app.
    unfold body. rewrite norm_comps_tidy by done. cbn -[norm_step].
    exact Hb1.
Qed.

End paths.

(** ** Paths and places *)

Section places.
Import pystr posixpath.

Lemma join_isabs r b : isabs r = true → startswith b "/" = false →
  isabs (join r b) = true.
Proof.
  intros Hr Hb. unfold join. rewrite Hb.
  destruct r as [|c r]; [done|]. by destruct (_ || _).
Qed.

Lemma settled_not_abs b : settled b → startswith b "/" = false.
Proof.
  intros ([Hne Hplain] & _). destruct b as [|c b]; [done|]. cbn in *.
  by apply orb_false_iff in Hplain as [-> _].
Qed.

(** A directory and its absolute form are the same place. *)
Lemma fs_key_abspath w s :
  isabs (cwd w) = true → fs_key w (abspath (cwd w) s) = fs_key w s.
Proof.
  intros Hcwd. unfold fs_key, abspath.
  pose proof (abs_join_isabs (cwd w) s Hcwd) as Habs.
  pose proof (tidy_isabs _ (normpath_tidy _ Habs)) as Hn.
  unfold abs_join at 1. rewrite Hn. by apply norm_comps_normpath.
Qed.

(** Joining a name to the absolute form of a directory gives the place
    of that name inside the directory. *)
Lemma fs_key_child w s b :
  isabs (cwd w) = true → settled b →
  fs_key w (join (abspath (cwd w) s) b) = fs_key w s ++ [b].
Proof.
  intros Hcwd Hb. unfold fs_key, abspath.
  pose proof (abs_join_isabs (cwd w) s Hcwd) as Habs.
  pose proof (tidy_isabs _ (normpath_tidy _ Habs)) as Hn.
  unfold abs_join at 1.
  rewrite (join_isabs _ _ Hn (settled_not_abs _ Hb)).
  by apply norm_comps_child.
Qed.

Lemma settled_fsaverage : settled "fsaverage".
Proof. by repeat split. Qed.

Lemma repr_body_plain s : plain s = true → repr_body "'" s = s.
Proof.
  induction s as [|c s IH]; [done|]. cbn.
  intros [[[Hp Hq]%andb_true_iff Hb]%andb_true_iff Hs]%andb_true_iff.
  rewrite (IH Hs). unfold repr_char.
  apply negb_true_iff in Hq, Hb. rewrite Hq, Hb, Hp. cbn.
  unfold isprintable in Hp.
  destruct (N.eqb_spec (N_of_ascii c) 9) as [E|_];
    [rewrite E in Hp; done|].
  destruct (N.eqb_spec (N_of_ascii c) 10) as [E|_];
    [rewrite E in Hp; done|].
  destruct (N.eqb_spec (N_of_ascii c) 13) as [E|_];
    [rewrite E in Hp; done|].
  done.
Qed.

Lemma plain_no_quote s : plain s = true → contains_char "'" s = false.
Proof.
  induction s as [|c s IH]; [done|]. cbn [plain contains_char].
  intros [[[_ Hq]%andb_true_iff _]%andb_true_iff Hs]%andb_true_iff.
  rewrite (IH Hs), orb_false_r. apply negb_true_iff in Hq.
  by rewrite Ascii.eqb_sym.
Qed.

(** [%r] of a plain string is the string between single quotes. *)
Lemma repr_plain s : plain s = true → repr s = String "'" (s +:+ "'").
Proof.
  intros Hs. unfold repr. rewrite (plain_no_quote _ Hs). cbn [andb].
  by rewrite (repr_body_plain _ Hs).
Qed.

End places.

(** ** The path resolver *)

Section resolver.
Import posixpath.

Lemma get_create_explicit s w : _get_create_subjects_dir (Some s) w = Ok s w.
Proof. reflexivity. Qed.

Lemma get_create_configured w p :
  config w !! "SUBJECTS_DIR" = Some p →
  _get_create_subjects_dir None w = Ok p w.
Proof.
  intros Hp. unfold _get_create_subjects_dir, bind, get_subjects_dir,
    get_config. by rewrite Hp.
Qed.

Lemma get_create_default w :
  config w !! "SUBJECTS_DIR" = None →
  ∃ base, _get_path None "MNE_DATA" "montage coregistration" w = Ok base w ∧
    _get_create_subjects_dir None w =
    match makedirs (join base "MNE-fsaverage-data") w with
    | Ok _ w' => Ok (join base "MNE-fsaverage-data") w'
    | Raise e w' => Raise e w'
    end.
Proof.
  intros Hnone. unfold _get_create_subjects_dir, bind, get_subjects_dir,
    get_config, _get_path. rewrite Hnone.
  destruct (environ w !! "MNE_DATA") as [d|]; eexists; split; try done.
Qed.

Lemma steady_get_create_subjects_dir sd :
  steady (_get_create_subjects_dir sd).
Proof.
  unfold _get_create_subjects_dir.
  apply steady_bind.
  { destruct sd; [apply steady_ret | intros w; apply evolves_refl]. }
  intros [s|]; [apply steady_ret|].
  apply steady_bind.
  { intros w. unfold _get_path.
    destruct (environ w !! _); apply evolves_refl. }
  intros base. apply steady_bind; [apply steady_makedirs|].
  intros _. apply steady_ret.
Qed.

Lemma makedirs_requests name w :
  requests (final (makedirs name w)) = requests w.
Proof.
  unfold makedirs. destruct (String.eqb name ""); [done|].
  by destruct (makedirs_walk _ _ _) as [[] f].
Qed.

Lemma get_create_requests sd w :
  requests (final (_get_create_subjects_dir sd w)) = requests w.
Proof.
  destruct sd as [s|]; [done|].
  destruct (config w !! "SUBJECTS_DIR") as [p|] eqn:E.
  - by rewrite (get_create_configured _ _ E).
  - destruct (get_create_default _ E) as (base & _ & ->).
    pose proof (makedirs_requests (join base "MNE-fsaverage-data") w) as H.
    by destruct (makedirs _ w).
Qed.

(** The resolver, one case per way out. *)
Lemma set_montage_coreg_path_cases sd w :
  _set_montage_coreg_path sd w =
  match _get_create_subjects_dir sd w with
  | Raise e w1 => Raise e w1
  | Ok s w1 =>
      match config w1 !! "SUBJECTS_DIR" with
      | Some old =>
          if String.eqb old s
          then Ok s (set_config_map (<["SUBJECTS_DIR" := s]> (config w1)) w1)
          else Raise (ValueError (conflict_message old s)) w1
      | None => Ok s (set_config_map (<["SUBJECTS_DIR" := s]> (config w1)) w1)
      end
  end.
Proof.
  unfold _set_montage_coreg_path, bind.
  destruct (_get_create_subjects_dir sd w) as [s w1|e w1]; [|done].
  cbn. destruct (config w1 !! "SUBJECTS_DIR") as [old|]; [|done].
  by destruct (String.eqb old s).
Qed.

Lemma set_montage_coreg_path_Ok sd w s w' :
  _set_montage_coreg_path sd w = Ok s w' →
  ∃ w1, _get_create_subjects_dir sd w = Ok s w1 ∧
        w' = set_config_map (<["SUBJECTS_DIR" := s]> (config w1)) w1.
Proof.
  rewrite set_montage_coreg_path_cases.
  destruct (_get_create_subjects_dir sd w) as [s1 w1|e w1]; [|done].
  destruct (config w1 !! "SUBJECTS_DIR") as [old|].
  - destruct (String.eqb old s1); [|done]. intros [= -> <-]. by exists w1.
  - intros [= -> <-]. by exists w1.
Qed.

Lemma mentions_conflict_message old new :
  mentions (conflict_message old new) old ∧
  mentions (conflict_message old new) new.
Proof.
  unfold mentions, conflict_message. split.
  - by eexists "The subjects dir is already set to "%string, _.
  - exists ("The subjects dir is already set to " +:+ pystr.repr old +:+
            ", which does not match the provided subjects_dir=")%string,
           ""%string.
    by rewrite append_nil_r, !append_assoc.
Qed.

(** For plain directories the message quotes them as they are. *)
Lemma conflict_message_plain old new :
  plain old = true → plain new = true →
  conflict_message old new
  = ("The subjects dir is already set to " +:+ String "'" (old +:+ "'")
     +:+ ", which does not match the provided subjects_dir="
     +:+ String "'" (new +:+ "'"))%string.
Proof.
  intros Hold Hnew. unfold conflict_message.
  by rewrite (repr_plain _ Hold), (repr_plain _ Hnew).
Qed.

End resolver.

(** * The synchronizer's guarantees *)

Section synchronizer_claims.
Context (content_hash : string → string).
Context (unzip : string → option (list (string * string))).
Import posixpath.

(** C2. When at least one manifest entry is missing from the destination
    and the run of the synchronizer returns, every entry of the manifest
    is a file under the destination, and every file that was on disk
    before the run, listed or not, still has the bytes it had: nothing
    that existed was overwritten. *)
Theorem synchronizer_fills_and_never_overwrites
    destination manifest_path url hash_ w w' text :
  file_content w manifest_path = Some text →
  (∃ name, name ∈ pystr.lines text ∧
           isfile w (join destination name) = false) →
  _manifest_check_download content_hash unzip destination manifest_path
    url hash_ w = Ok tt w' →
  (∀ name, name ∈ pystr.lines text →
           isfile w' (join destination name) = true) ∧
  (∀ path content, file_content w path = Some content →
                   file_content w' path = Some content).
Proof.
  intros Htext _ Hrun. split.
  - by eapply manifest_check_download_fills.
  - intros path content Hc.
    pose proof (manifest_check_download_keeps content_hash unzip destination
                  manifest_path url hash_ w) as Hk.
    rewrite Hrun in Hk. by eapply keeps_file_content.
Qed.

(** C3. When an entry is missing, so that the archive is downloaded, and
    the downloaded bytes do not hash to the expected value, the
    synchronizer raises the verification failure and the file system is
    exactly what it was: nothing was extracted. *)
Theorem hash_mismatch_extracts_nothing
    destination manifest_path url hash_ w text archive :
  file_content w manifest_path = Some text →
  missing w destination (pystr.lines text) ≠ [] →
  remote w !! url = Some archive →
  content_hash archive ≠ hash_ →
  ∃ w',
    _manifest_check_download content_hash unzip destination manifest_path
      url hash_ w
    = Raise (VerificationError hash_ (content_hash archive)) w' ∧
    fs w' = fs w.
Proof.
  intros Htext Hneed Hurl Hhash. exists (log_request url w). split; [|done].
  unfold _manifest_check_download.
  erewrite bind_Ok; [|by apply read_text_Ok].
  unfold bind, get_world, http_get. rewrite bool_decide_eq_false_2 by done.
  rewrite Hurl. apply String.eqb_neq in Hhash. by rewrite Hhash.
Qed.

(** C4. When every file of the manifest already exists under the
    destination, the synchronizer returns at once: the world, and with it
    the log of requests, is untouched, so no network call was made. *)
Theorem complete_destination_makes_no_request
    destination manifest_path url hash_ w text :
  file_content w manifest_path = Some text →
  (∀ name, name ∈ pystr.lines text →
           isfile w (join destination name) = true) →
  _manifest_check_download content_hash unzip destination manifest_path
    url hash_ w = Ok tt w ∧
  requests (final (_manifest_check_download content_hash unzip destination
                     manifest_path url hash_ w))
  = requests w.
Proof.
  intros Htext Hall.
  rewrite (manifest_check_download_complete content_hash unzip destination
             manifest_path url hash_ w text); [done..|].
  by apply missing_nil.
Qed.

(** C6. A second run of the synchronizer right after one that returned
    makes no request and changes no file: it returns the world it was
    given. *)
Theorem synchronizer_idempotent destination manifest_path url hash_ w w1 :
  _manifest_check_download content_hash unzip destination manifest_path
    url hash_ w = Ok tt w1 →
  ∃ w2,
    _manifest_check_download content_hash unzip destination manifest_path
      url hash_ w1 = Ok tt w2 ∧
    requests w2 = requests w1 ∧ fs w2 = fs w1.
Proof.
  intros Hrun. exists w1. split; [|done].
  pose proof Hrun as (text & Htext & _)%manifest_check_download_Ok.
  pose proof (manifest_check_download_keeps content_hash unzip destination
                manifest_path url hash_ w) as Hk.
  rewrite Hrun in Hk.
  apply manifest_check_download_complete with (text := text).
  - by eapply keeps_file_content.
  - apply missing_nil. by eapply manifest_check_download_fills.
Qed.

End synchronizer_claims.

Lemma synchronizer_fills_and_never_overwrites_witness :
  (∀ name, name ∈ pystr.lines demo.root_txt →
     isfile demo.complete (posixpath.join "/home/ada/data" name) = true) ∧
  (∀ path content, file_content demo.partial path = Some content →
                   file_content demo.complete path = Some content).
Proof.
  apply (synchronizer_fills_and_never_overwrites demo.digest demo.unpack
           "/home/ada/data" demo.root_manifest demo.root_url demo.root_hash
           demo.partial demo.complete demo.root_txt).
  - run.
  - exists "fsaverage/surf/lh.white"%string. split.
    + vm_compute (pystr.lines _).
      apply list_elem_of_further, list_elem_of_here.
    + run.
  - apply Ok_final. run.
Defined.

Lemma hash_mismatch_extracts_nothing_witness :
  ∃ w', demo.check_download "/home/ada/data" demo.root_manifest
          demo.root_url demo.root_hash demo.tampered
        = Raise (VerificationError demo.root_hash
                   (demo.digest demo.bad_zip)) w'
        ∧ fs w' = fs demo.tampered.
Proof.
  apply (hash_mismatch_extracts_nothing demo.digest demo.unpack
           "/home/ada/data" demo.root_manifest demo.root_url demo.root_hash
           demo.tampered demo.root_txt demo.bad_zip).
  - run.
  - vm_compute. discriminate.
  - run.
  - vm_compute. discriminate.
Defined.

Lemma complete_destination_makes_no_request_witness :
  demo.check_download "/home/ada/data" demo.root_manifest demo.root_url
    demo.root_hash demo.complete = Ok tt demo.complete ∧
  requests (final (demo.check_download "/home/ada/data" demo.root_manifest
                     demo.root_url demo.root_hash demo.complete))
  = requests demo.complete.
Proof.
  apply (complete_destination_makes_no_request demo.digest demo.unpack
           "/home/ada/data" demo.root_manifest demo.root_url demo.root_hash
           demo.complete demo.root_txt).
  - run.
  - intros name Hin. each_member Hin; run.
Defined.

Lemma synchronizer_idempotent_witness :
  ∃ w2, demo.check_download "/home/ada/data" demo.root_manifest
          demo.root_url demo.root_hash demo.complete = Ok tt w2 ∧
        requests w2 = requests demo.complete ∧ fs w2 = fs demo.complete.
Proof.
  apply (synchronizer_idempotent demo.digest demo.unpack
           "/home/ada/data" demo.root_manifest demo.root_url demo.root_hash
           demo.partial demo.complete).
  apply Ok_final. run.
Defined.

(** * The path resolver's guarantees *)

Section resolver_claims.
Import posixpath.

Lemma join_nonempty a b : b ≠ ""%string → String.eqb (join a b) "" = false.
Proof.
  intros Hb. apply String.eqb_neq. unfold join.
  destruct (pystr.startswith b "/"); [done|].
  destruct (_ || _); destruct a; cbn; done.
Qed.

Lemma get_path_total path key name w :
  ∃ base, _get_path path key name w = Ok base w.
Proof.
  unfold _get_path. destruct path; [eauto|].
  destruct (environ w !! key); eauto.
Qed.

(** C1. When a subjects directory [p] is persisted and the resolved
    directory [s] is a different string, the resolver raises the
    [ValueError] whose message holds the [%r] form of both [p] and [s],
    and the configuration after the failing call is the configuration
    before it. *)
Theorem resolver_conflict_raises_and_writes_nothing sd w s w1 p :
  _get_create_subjects_dir sd w = Ok s w1 →
  config w !! "SUBJECTS_DIR" = Some p →
  p ≠ s →
  _set_montage_coreg_path sd w
  = Raise (ValueError (conflict_message p s)) w1 ∧
  mentions (conflict_message p s) p ∧
  mentions (conflict_message p s) s ∧
  config w1 = config w.
Proof.
  intros Hres Hp Hne.
  pose proof (steady_get_create_subjects_dir sd w) as Hev.
  rewrite Hres in Hev. cbn in Hev.
  pose proof (ev_config _ _ Hev) as Hcfg.
  split; [|split; [|split]]; [|apply mentions_conflict_message..|done].
  rewrite set_montage_coreg_path_cases, Hres, Hcfg, Hp.
  apply String.eqb_neq in Hne. by rewrite Hne.
Qed.

(** C8. The conflict check compares the two values as raw strings: once
    the directory is resolved to [s], the resolver raises its
    [ValueError] exactly when a value [p] is persisted and [p] and [s]
    are different strings; this holds also when [p] and [s] are two
    spellings of one directory. *)
Theorem conflict_check_compares_raw_strings sd w s w1 :
  _get_create_subjects_dir sd w = Ok s w1 →
  ((∃ msg w', _set_montage_coreg_path sd w = Raise (ValueError msg) w')
   ↔ (∃ p, config w !! "SUBJECTS_DIR" = Some p ∧ p ≠ s)) ∧
  (∀ p, config w !! "SUBJECTS_DIR" = Some p → p ≠ s →
        fs_key w p = fs_key w s →
        ∃ w', _set_montage_coreg_path sd w
              = Raise (ValueError (conflict_message p s)) w').
Proof.
  intros Hres.
  pose proof (steady_get_create_subjects_dir sd w) as Hev.
  rewrite Hres in Hev. cbn in Hev.
  pose proof (ev_config _ _ Hev) as Hcfg.
  assert (Hraise : ∀ p, config w !! "SUBJECTS_DIR" = Some p → p ≠ s →
            _set_montage_coreg_path sd w
            = Raise (ValueError (conflict_message p s)) w1).
  { intros p Hp Hne.
    rewrite set_montage_coreg_path_cases, Hres, Hcfg, Hp.
    apply String.eqb_neq in Hne. by rewrite Hne. }
  split; [split|].
  - intros (msg & w' & Hrun).
    rewrite set_montage_coreg_path_cases, Hres, Hcfg in Hrun.
    destruct (config w !! "SUBJECTS_DIR") as [p|]; [|done].
    destruct (String.eqb_spec p s) as [|Hne]; [done|]. by exists p.
  - intros (p & Hp & Hne). eexists _, _. by apply Hraise.
  - intros p Hp Hne _. eexists. by apply Hraise.
Qed.

(** C7. With no directory given and none persisted, the resolver takes
    the base data directory, joins ['MNE-fsaverage-data'] to it, returns
    that path and persists it. Unless a regular file is at one of the
    places the path goes through as it is written, the directory exists
    afterwards, and so does every directory above it and every place
    the path goes through; what was on disk is still there, what is new
    is a directory, and nothing changes when those places were
    directories already. *)
Theorem default_subjects_dir_is_derived_and_created w base :
  config w !! "SUBJECTS_DIR" = None →
  _get_path None "MNE_DATA" "montage coregistration" w = Ok base w →
  (∀ k content, k ∈ trail w (join base "MNE-fsaverage-data") →
                node_at (fs w) k ≠ Some (File content)) →
  ∃ w' w1,
    _get_create_subjects_dir None w
    = Ok (join base "MNE-fsaverage-data") w' ∧
    _set_montage_coreg_path None w
    = Ok (join base "MNE-fsaverage-data") w1 ∧
    config w1 = <["SUBJECTS_DIR" := join base "MNE-fsaverage-data"]> (config w) ∧
    fs w1 = fs w' ∧
    isdir w' (join base "MNE-fsaverage-data") = true ∧
    (∀ k, k ∈ way w (join base "MNE-fsaverage-data") →
          fs w' !! k = Some Dir) ∧
    (∀ k, k ∈ trail w (join base "MNE-fsaverage-data") →
          node_at (fs w') k = Some Dir) ∧
    (∀ k n, fs w !! k = Some n → fs w' !! k = Some n) ∧
    (∀ k n, fs w' !! k = Some n → fs w !! k = Some n ∨ n = Dir) ∧
    ((∀ k, k ∈ trail w (join base "MNE-fsaverage-data") →
           node_at (fs w) k = Some Dir) → w' = w).
Proof.
  intros Hnone Hbase Hfree.
  destruct (get_create_default _ Hnone) as (base' & Hbase' & Hrun).
  assert (base' = base) as -> by congruence.
  set (target := join base "MNE-fsaverage-data") in *.
  assert (Hne : target ≠ ""%string)
    by (by apply String.eqb_neq, join_nonempty).
  destruct (makedirs_returns target w Hne Hfree) as [w' Hmk].
  rewrite Hmk in Hrun.
  pose proof (steady_makedirs target w) as Hev.
  pose proof (makedirs_fs_keeps target w) as Hkeep.
  pose proof (makedirs_adds_dirs target w) as Hadd.
  rewrite Hmk in Hev, Hkeep, Hadd. cbn in Hev, Hkeep, Hadd.
  exists w', (set_config_map (<["SUBJECTS_DIR" := target]> (config w')) w').
  split; [done|]. split.
  { rewrite set_montage_coreg_path_cases, Hrun.
    by rewrite (ev_config _ _ Hev), Hnone. }
  split; [cbn; by rewrite (ev_config _ _ Hev)|]. split; [done|].
  split; [by eapply makedirs_Ok_isdir|].
  split; [by apply makedirs_Ok_way|].
  split; [by apply makedirs_Ok_trail|].
  split; [exact Hkeep|]. split; [exact Hadd|].
  intros Hall. rewrite (makedirs_idle target w Hne Hall) in Hmk. congruence.
Qed.

(** A regular file at one of the places the path of the default
    directory goes through is a file-system failure: nothing is
    persisted and no request is made, and the directories made until
    the file was met stay. *)
Lemma default_subjects_dir_blocked w base k content :
  config w !! "SUBJECTS_DIR" = None →
  _get_path None "MNE_DATA" "montage coregistration" w = Ok base w →
  k ∈ trail w (join base "MNE-fsaverage-data") →
  node_at (fs w) k = Some (File content) →
  ∃ w', _set_montage_coreg_path None w
        = Raise (OSError (join base "MNE-fsaverage-data")) w' ∧
        config w' = config w ∧ requests w' = requests w ∧
        ∀ k n, fs w !! k = Some n → fs w' !! k = Some n.
Proof.
  intros Hnone Hbase Hk Hfile.
  destruct (get_create_default _ Hnone) as (base' & Hbase' & Hrun).
  assert (base' = base) as -> by congruence.
  set (target := join base "MNE-fsaverage-data") in *.
  destruct (makedirs_blocked target w k content Hk Hfile) as [w' Hmk].
  pose proof (steady_makedirs target w) as Hev.
  pose proof (makedirs_requests target w) as Hreq.
  pose proof (makedirs_fs_keeps target w) as Hkeep.
  rewrite Hmk in Hrun, Hev, Hreq, Hkeep. cbn in Hev, Hreq, Hkeep.
  exists w'. rewrite set_montage_coreg_path_cases, Hrun.
  split; [done|]. split; [apply Hev|]. split; [done|exact Hkeep].
Qed.

End resolver_claims.

Lemma resolver_conflict_raises_and_writes_nothing_witness :
  _set_montage_coreg_path (Some "/b"%string) demo.configured
  = Raise (ValueError (conflict_message "/a" "/b")) demo.configured ∧
  mentions (conflict_message "/a" "/b") "/a" ∧
  mentions (conflict_message "/a" "/b") "/b" ∧
  config demo.configured = config demo.configured.
Proof.
  apply (resolver_conflict_raises_and_writes_nothing
           (Some "/b"%string) demo.configured "/b" demo.configured "/a").
  - run.
  - run.
  - discriminate.
Defined.

Lemma conflict_check_compares_raw_strings_witness :
  ((∃ msg w', _set_montage_coreg_path (Some "/a/"%string) demo.configured
              = Raise (ValueError msg) w')
   ↔ (∃ p, config demo.configured !! "SUBJECTS_DIR" = Some p
           ∧ p ≠ "/a/"%string)) ∧
  (∀ p, config demo.configured !! "SUBJECTS_DIR" = Some p →
        p ≠ "/a/"%string →
        fs_key demo.configured p = fs_key demo.configured "/a/" →
        ∃ w', _set_montage_coreg_path (Some "/a/"%string) demo.configured
              = Raise (ValueError (conflict_message p "/a/")) w').
Proof.
  apply (conflict_check_compares_raw_strings
           (Some "/a/"%string) demo.configured "/a/" demo.configured).
  run.
Defined.

Lemma default_subjects_dir_is_derived_and_created_witness :
  ∃ w' w1,
    _get_create_subjects_dir None demo.fresh
    = Ok (posixpath.join "/home/ada/mne_data" "MNE-fsaverage-data") w' ∧
    _set_montage_coreg_path None demo.fresh
    = Ok (posixpath.join "/home/ada/mne_data" "MNE-fsaverage-data") w1 ∧
    config w1
    = <["SUBJECTS_DIR"%string :=
          posixpath.join "/home/ada/mne_data" "MNE-fsaverage-data"]>
        (config demo.fresh) ∧
    fs w1 = fs w' ∧
    isdir w' (posixpath.join "/home/ada/mne_data" "MNE-fsaverage-data")
    = true ∧
    (∀ k, k ∈ way demo.fresh
                (posixpath.join "/home/ada/mne_data" "MNE-fsaverage-data") →
          fs w' !! k = Some Dir) ∧
    (∀ k, k ∈ trail demo.fresh
                (posixpath.join "/home/ada/mne_data" "MNE-fsaverage-data") →
          node_at (fs w') k = Some Dir) ∧
    (∀ k n, fs demo.fresh !! k = Some n → fs w' !! k = Some n) ∧
    (∀ k n, fs w' !! k = Some n → fs demo.fresh !! k = Some n ∨ n = Dir) ∧
    ((∀ k, k ∈ trail demo.fresh
                 (posixpath.join "/home/ada/mne_data" "MNE-fsaverage-data") →
           node_at (fs demo.fresh) k = Some Dir) → w' = demo.fresh).
Proof.
  apply (default_subjects_dir_is_derived_and_created demo.fresh
           "/home/ada/mne_data").
  - run.
  - run.
  - intros k content Hk. vm_compute (trail _ _) in Hk.
    repeat (apply elem_of_cons in Hk as [->|Hk]);
      [by vm_compute.. | by apply elem_of_nil in Hk].
Defined.

(** Two spellings of one directory, with and without a final separator:
    the resolver refuses the second. *)
Example trailing_separator_is_a_conflict :
  fs_key demo.configured "/a/" = fs_key demo.configured "/a" ∧
  _set_montage_coreg_path (Some "/a/"%string) demo.configured
  = Raise (ValueError
      ("The subjects dir is already set to '/a', which does not match "
       +:+ "the provided subjects_dir='/a/'"))
      demo.configured.
Proof. runs. Qed.

(** A relative and an absolute spelling of one directory. *)
Example relative_spelling_is_a_conflict :
  let w := set_config_map {["SUBJECTS_DIR"%string := "/home/ada/data"%string]}
             demo.fresh in
  fs_key w "data" = fs_key w "/home/ada/data" ∧
  _set_montage_coreg_path (Some "data"%string) w
  = Raise (ValueError
      ("The subjects dir is already set to '/home/ada/data', which does "
       +:+ "not match the provided subjects_dir='data'"))
      w.
Proof. runs. Qed.

(** With a regular file where [~/mne_data] should be, the default
    directory cannot be made. *)
Example blocked_default_raises :
  _get_create_subjects_dir None demo.blocked
  = Raise (OSError "/home/ada/mne_data/MNE-fsaverage-data") demo.blocked.
Proof. run. Qed.

(** A default directory written through a missing directory [x] and
    [..]: [x] is made as well, and the default directory is the one
    below [y]. *)
Example default_dir_through_missing_directory :
  let o := _set_montage_coreg_path None demo.detour in
  returned o = Some "/home/ada/x/../y/MNE-fsaverage-data"%string ∧
  config (final o) !! "SUBJECTS_DIR"
  = Some "/home/ada/x/../y/MNE-fsaverage-data"%string ∧
  isdir (final o) "/home/ada/x" = true ∧
  isdir (final o) "/home/ada/y/MNE-fsaverage-data" = true ∧
  isdir (final o) "/home/ada/x/../y/MNE-fsaverage-data" = true.
Proof. runs. Qed.

(** Written through a regular file [x] and [..], the default directory
    cannot be made, though no file is at or above the place its normal
    form names. *)
Example default_dir_through_regular_file :
  (∀ k content,
     k ∈ way demo.detour_file "/home/ada/x/../y/MNE-fsaverage-data" →
     fs demo.detour_file !! k ≠ Some (File content)) ∧
  _set_montage_coreg_path None demo.detour_file
  = Raise (OSError "/home/ada/x/../y/MNE-fsaverage-data") demo.detour_file.
Proof.
  split; [|run].
  intros k content Hk. vm_compute (way _ _) in Hk.
  repeat (apply elem_of_cons in Hk as [->|Hk]);
    [by vm_compute.. | by apply elem_of_nil in Hk].
Qed.

(** A directory made before the failure stays: with [x] missing and a
    regular file at [y], the call raises after it has made [x], and
    nothing is persisted. *)
Example directories_made_before_a_failure_stay :
  let o := _set_montage_coreg_path None demo.detour_blocked in
  raised o = Some (OSError "/home/ada/x/../y/MNE-fsaverage-data") ∧
  isdir demo.detour_blocked "/home/ada/x" = false ∧
  isdir (final o) "/home/ada/x" = true ∧
  config (final o) !! "SUBJECTS_DIR" = None.
Proof. runs. Qed.

(** * fetch_fsaverage *)

Lemma set_montage_coreg_path_effects sd w s w1 :
  _set_montage_coreg_path sd w = Ok s w1 →
  config w1 !! "SUBJECTS_DIR" = Some s ∧ cwd w1 = cwd w ∧
  requests w1 = requests w.
Proof.
  intros (w0 & Hres & ->)%set_montage_coreg_path_Ok. cbn.
  pose proof (steady_get_create_subjects_dir sd w) as Hev.
  pose proof (get_create_requests sd w) as Hreq.
  rewrite Hres in Hev, Hreq. cbn in Hev, Hreq.
  split; [apply lookup_insert_eq|]. split; [apply Hev|done].
Qed.

Section orchestrator.
Context (content_hash : string → string).
Context (unzip : string → option (list (string * string))).
Context (module_file : string).
Import posixpath.

(** The orchestrator, one case per way out. *)
Lemma fetch_fsaverage_cases sd w :
  fetch_fsaverage content_hash unzip module_file sd w =
  match _set_montage_coreg_path sd w with
  | Raise e w1 => Raise e w1
  | Ok s w1 =>
      match makedirs (join (abspath (cwd w1) s) "fsaverage") w1 with
      | Raise e w2 => Raise e w2
      | Ok _ w2 =>
          match for_each (fsaverage_data_parts module_file
                            (abspath (cwd w1) s))
                         (sync content_hash unzip) w2 with
          | Ok _ w3 => Ok (join (abspath (cwd w1) s) "fsaverage") w3
          | Raise e w3 => Raise e w3
          end
      end
  end.
Proof.
  unfold fetch_fsaverage, bind, get_world.
  destruct (_set_montage_coreg_path sd w) as [s w1|e w1]; [|done].
  destruct (makedirs _ w1) as [[] w2|e w2]; [|done].
  by destruct (for_each _ _ w2).
Qed.

Lemma steady_sync part : steady (sync content_hash unzip part).
Proof. apply steady_manifest_check_download. Qed.

Lemma steady_all_parts subjects_dir :
  steady (for_each (fsaverage_data_parts module_file subjects_dir)
                   (sync content_hash unzip)).
Proof. apply steady_for_each, steady_sync. Qed.

(** What a call that returns went through. *)
Lemma fetch_fsaverage_Ok sd w fs_dir w' :
  fetch_fsaverage content_hash unzip module_file sd w = Ok fs_dir w' →
  ∃ s w1 w2,
    _set_montage_coreg_path sd w = Ok s w1 ∧
    makedirs (join (abspath (cwd w) s) "fsaverage") w1 = Ok tt w2 ∧
    for_each (fsaverage_data_parts module_file (abspath (cwd w) s))
             (sync content_hash unzip) w2 = Ok tt w' ∧
    fs_dir = join (abspath (cwd w) s) "fsaverage" ∧
    config w' !! "SUBJECTS_DIR" = Some s.
Proof.
  rewrite fetch_fsaverage_cases.
  destruct (_set_montage_coreg_path sd w) as [s w1|e w1] eqn:Eres; [|done].
  destruct (set_montage_coreg_path_effects _ _ _ _ Eres) as (Hcfg & -> & _).
  destruct (makedirs _ w1) as [[] w2|e w2] eqn:Emk; [|done].
  destruct (for_each _ _ w2) as [[] w3|e w3] eqn:Eall; [|done].
  intros [= <- <-]. exists s, w1, w2. repeat split; try done.
  pose proof (steady_makedirs (join (abspath (cwd w) s) "fsaverage") w1)
    as Hev1.
  pose proof (steady_all_parts (abspath (cwd w) s) w2) as Hev2.
  rewrite Emk in Hev1. rewrite Eall in Hev2. cbn in Hev1, Hev2.
  by rewrite (ev_config _ _ Hev2), (ev_config _ _ Hev1).
Qed.

(** C5. A call of [fetch_fsaverage] that returns has resolved the
    subjects directory with the path resolver, made the [fsaverage]
    directory in it, and run the manifest synchronizer
    [_manifest_check_download] twice, once for each of exactly two
    descriptors and in this order: for [root.zip], with the absolute
    subjects directory as destination, the manifest [root.txt] beside
    the module, and the url and hash of the root archive; then, in the
    world that run left, for [bem.zip], with the [fsaverage] directory
    as destination, the manifest [bem.txt], and the url and hash of the
    bem archive. It has returned the absolute path of that [fsaverage]
    directory (the absolute form of the subjects directory joined with
    ['fsaverage']), which exists. *)
Theorem fetch_fsaverage_contract sd w fs_dir w' :
  isabs (cwd w) = true →
  fetch_fsaverage content_hash unzip module_file sd w = Ok fs_dir w' →
  ∃ s w1 w2 w3,
    _set_montage_coreg_path sd w = Ok s w1 ∧
    fs_dir = join (abspath (cwd w) s) "fsaverage" ∧
    makedirs fs_dir w1 = Ok tt w2 ∧
    fsaverage_data_parts module_file (abspath (cwd w) s)
    = [ ("root.zip"%string,
         {| url := "https://osf.io/3bxqt/download?revision=2";
            hash_ := "5133fe92b7b8f03ae19219d5f46e4177";
            manifest := join (FSAVERAGE_MANIFEST_PATH module_file) "root.txt";
            destination := abspath (cwd w) s |});
        ("bem.zip"%string,
         {| url := "https://osf.io/7ve8g/download?revision=2";
            hash_ := "608c438af6a15a19b66232323088b32d";
            manifest := join (FSAVERAGE_MANIFEST_PATH module_file) "bem.txt";
            destination := fs_dir |}) ] ∧
    _manifest_check_download content_hash unzip
      (abspath (cwd w) s)
      (join (FSAVERAGE_MANIFEST_PATH module_file) "root.txt")
      "https://osf.io/3bxqt/download?revision=2"
      "5133fe92b7b8f03ae19219d5f46e4177" w2 = Ok tt w3 ∧
    _manifest_check_download content_hash unzip
      fs_dir
      (join (FSAVERAGE_MANIFEST_PATH module_file) "bem.txt")
      "https://osf.io/7ve8g/download?revision=2"
      "608c438af6a15a19b66232323088b32d" w3 = Ok tt w' ∧
    fs_key w (abspath (cwd w) s) = fs_key w s ∧
    fs_key w fs_dir = fs_key w s ++ ["fsaverage"%string] ∧
    isabs fs_dir = true ∧
    dirname fs_dir = abspath (cwd w) s ∧
    isdir w' fs_dir = true.
Proof.
  intros Hcwd. rewrite fetch_fsaverage_cases.
  destruct (_set_montage_coreg_path sd w) as [s w1|e w1] eqn:Eres; [|done].
  destruct (set_montage_coreg_path_effects _ _ _ _ Eres) as (_ & -> & _).
  set (subjects_dir := abspath (cwd w) s).
  destruct (makedirs _ w1) as [[] w2|e w2] eqn:Emk; [|done].
  destruct (for_each _ _ w2) as [[] w3'|e w3'] eqn:Eall; [|done].
  intros [= <- <-].
  pose proof (steady_all_parts subjects_dir w2) as Hev.
  rewrite Eall in Hev. cbn [final] in Hev.
  cbn [fsaverage_data_parts for_each] in Eall.
  apply bind_Ok_inv in Eall as ([] & w3 & Eroot & Eall).
  apply bind_Ok_inv in Eall as ([] & w4 & Ebem & [= <-]).
  unfold sync in Eroot, Ebem.
  cbn [snd url hash_ manifest destination] in Eroot, Ebem.
  pose proof (abspath_tidy (cwd w) s Hcwd) as Htidy.
  exists s, w1, w2, w3.
  split; [done|]. split; [done|]. split; [done|]. split; [done|].
  split; [exact Eroot|]. split; [exact Ebem|].
  split; [by apply fs_key_abspath|].
  split; [apply fs_key_child; [done|apply settled_fsaverage]|].
  split; [|split].
  - apply join_isabs; [by apply tidy_isabs|done].
  - by apply dirname_join_tidy.
  - apply (evolves_isdir _ _ _ Hev). by eapply makedirs_Ok_isdir.
Qed.

(** C9. On a call that passes the conflict check, the configuration
    entry is written by the resolver and the [fsaverage] directory is
    made before the first synchronizer step starts, with no request made
    so far; the rest of the call is the synchronizer loop from that
    state, and whatever the loop does, return or raise, the entry and
    the directory are still in place at the end. *)
Theorem side_effects_precede_downloads sd w s w1 w2 :
  _set_montage_coreg_path sd w = Ok s w1 →
  makedirs (join (abspath (cwd w1) s) "fsaverage") w1 = Ok tt w2 →
  (config w1 !! "SUBJECTS_DIR" = Some s ∧ requests w1 = requests w) ∧
  (config w2 !! "SUBJECTS_DIR" = Some s ∧
   isdir w2 (join (abspath (cwd w1) s) "fsaverage") = true ∧
   requests w2 = requests w) ∧
  fetch_fsaverage content_hash unzip module_file sd w =
    match for_each (fsaverage_data_parts module_file (abspath (cwd w1) s))
                   (sync content_hash unzip) w2 with
    | Ok _ w3 => Ok (join (abspath (cwd w1) s) "fsaverage") w3
    | Raise e w3 => Raise e w3
    end ∧
  config (final (fetch_fsaverage content_hash unzip module_file sd w))
    !! "SUBJECTS_DIR" = Some s ∧
  isdir (final (fetch_fsaverage content_hash unzip module_file sd w))
        (join (abspath (cwd w1) s) "fsaverage") = true.
Proof.
  intros Hres Hmk.
  destruct (set_montage_coreg_path_effects _ _ _ _ Hres) as (Hcfg & _ & Hreq).
  pose proof (steady_makedirs (join (abspath (cwd w1) s) "fsaverage") w1)
    as Hev1.
  pose proof (makedirs_requests (join (abspath (cwd w1) s) "fsaverage") w1)
    as Hreq1.
  rewrite Hmk in Hev1, Hreq1. cbn in Hev1, Hreq1.
  pose proof (makedirs_Ok_isdir _ _ _ Hmk) as Hdir.
  assert (Hcfg2 : config w2 !! "SUBJECTS_DIR" = Some s)
    by (by rewrite (ev_config _ _ Hev1)).
  split; [done|]. split; [repeat split; [done..|congruence]|].
  rewrite fetch_fsaverage_cases, Hres, Hmk. split; [done|].
  pose proof (steady_all_parts (abspath (cwd w1) s) w2) as Hev.
  destruct (for_each _ _ w2) as [[] w3|e w3]; cbn in *.
  all: split; [by rewrite (ev_config _ _ Hev)
              |by apply (evolves_isdir _ _ _ Hev)].
Qed.

(** When the [fsaverage] directory cannot be made the call stops there,
    with the entry written and no request made. *)
Lemma makedirs_failure_after_persist sd w s w1 e w2 :
  _set_montage_coreg_path sd w = Ok s w1 →
  makedirs (join (abspath (cwd w1) s) "fsaverage") w1 = Raise e w2 →
  fetch_fsaverage content_hash unzip module_file sd w = Raise e w2 ∧
  config w2 !! "SUBJECTS_DIR" = Some s ∧ requests w2 = requests w.
Proof.
  intros Hres Hmk.
  destruct (set_montage_coreg_path_effects _ _ _ _ Hres) as (Hcfg & _ & Hreq).
  pose proof (steady_makedirs (join (abspath (cwd w1) s) "fsaverage") w1)
    as Hev1.
  pose proof (makedirs_requests (join (abspath (cwd w1) s) "fsaverage") w1)
    as Hreq1.
  rewrite Hmk in Hev1, Hreq1. cbn in Hev1, Hreq1.
  rewrite fetch_fsaverage_cases, Hres, Hmk.
  split; [done|]. split; [by rewrite (ev_config _ _ Hev1)|congruence].
Qed.

(** C10. For a relative directory given by the caller, a call that
    returns has persisted the directory as it was given, and returned
    the [fsaverage] path below its absolute form: the parent of the
    returned path is [abspath] of the given directory and is not the
    persisted string. *)
Theorem persisted_dir_is_not_absolutized s w fs_dir w' :
  isabs (cwd w) = true →
  isabs s = false →
  fetch_fsaverage content_hash unzip module_file (Some s) w = Ok fs_dir w' →
  config w' !! "SUBJECTS_DIR" = Some s ∧
  dirname fs_dir = abspath (cwd w) s ∧
  dirname fs_dir ≠ s.
Proof.
  intros Hcwd Hrel Hrun.
  apply fetch_fsaverage_Ok in Hrun
    as (s1 & w1 & w2 & Hres & _ & _ & -> & Hcfg).
  pose proof Hres as (w0 & [= <- <-] & _)%set_montage_coreg_path_Ok.
  pose proof (abspath_tidy (cwd w) s Hcwd) as Htidy.
  assert (Hdir : dirname (join (abspath (cwd w) s) "fsaverage")
                 = abspath (cwd w) s) by (by apply dirname_join_tidy).
  split; [done|]. split; [done|].
  rewrite Hdir. intros Heq. apply tidy_isabs in Htidy. congruence.
Qed.

End orchestrator.

Lemma fetch_fsaverage_contract_witness :
  ∃ s w1 w2 w3,
    _set_montage_coreg_path None demo.fresh = Ok s w1 ∧
    "/home/ada/mne_data/MNE-fsaverage-data/fsaverage"%string
    = posixpath.join (posixpath.abspath (cwd demo.fresh) s) "fsaverage" ∧
    makedirs "/home/ada/mne_data/MNE-fsaverage-data/fsaverage" w1
    = Ok tt w2 ∧
    fsaverage_data_parts demo.base_py
      (posixpath.abspath (cwd demo.fresh) s)
    = [ ("root.zip"%string,
         {| url := "https://osf.io/3bxqt/download?revision=2";
            hash_ := "5133fe92b7b8f03ae19219d5f46e4177";
            manifest := posixpath.join
                          (FSAVERAGE_MANIFEST_PATH demo.base_py) "root.txt";
            destination := posixpath.abspath (cwd demo.fresh) s |});
        ("bem.zip"%string,
         {| url := "https://osf.io/7ve8g/download?revision=2";
            hash_ := "608c438af6a15a19b66232323088b32d";
            manifest := posixpath.join
                          (FSAVERAGE_MANIFEST_PATH demo.base_py) "bem.txt";
            destination
              := "/home/ada/mne_data/MNE-fsaverage-data/fsaverage" |}) ] ∧
    _manifest_check_download demo.digest demo.unpack
      (posixpath.abspath (cwd demo.fresh) s)
      (posixpath.join (FSAVERAGE_MANIFEST_PATH demo.base_py) "root.txt")
      "https://osf.io/3bxqt/download?revision=2"
      "5133fe92b7b8f03ae19219d5f46e4177" w2 = Ok tt w3 ∧
    _manifest_check_download demo.digest demo.unpack
      "/home/ada/mne_data/MNE-fsaverage-data/fsaverage"
      (posixpath.join (FSAVERAGE_MANIFEST_PATH demo.base_py) "bem.txt")
      "https://osf.io/7ve8g/download?revision=2"
      "608c438af6a15a19b66232323088b32d" w3
    = Ok tt (final (demo.fetch None demo.fresh)) ∧
    fs_key demo.fresh (posixpath.abspath (cwd demo.fresh) s)
    = fs_key demo.fresh s ∧
    fs_key demo.fresh "/home/ada/mne_data/MNE-fsaverage-data/fsaverage"
    = fs_key demo.fresh s ++ ["fsaverage"%string] ∧
    posixpath.isabs "/home/ada/mne_data/MNE-fsaverage-data/fsaverage" = true ∧
    posixpath.dirname "/home/ada/mne_data/MNE-fsaverage-data/fsaverage"
    = posixpath.abspath (cwd demo.fresh) s ∧
    isdir (final (demo.fetch None demo.fresh))
          "/home/ada/mne_data/MNE-fsaverage-data/fsaverage" = true.
Proof.
  apply (fetch_fsaverage_contract demo.digest demo.unpack demo.base_py
           None demo.fresh).
  - run.
  - apply Ok_final. run.
Defined.

Lemma side_effects_precede_downloads_witness :
  let w1 := final (_set_montage_coreg_path (Some "data"%string)
                     demo.tampered) in
  let w2 := final (makedirs "/home/ada/data/fsaverage" w1) in
  (config w1 !! "SUBJECTS_DIR" = Some "data"%string ∧
   requests w1 = requests demo.tampered) ∧
  (config w2 !! "SUBJECTS_DIR" = Some "data"%string ∧
   isdir w2 (posixpath.join (posixpath.abspath (cwd w1) "data") "fsaverage")
   = true ∧
   requests w2 = requests demo.tampered) ∧
  demo.fetch (Some "data"%string) demo.tampered =
    match for_each (fsaverage_data_parts demo.base_py
                      (posixpath.abspath (cwd w1) "data"))
                   (sync demo.digest demo.unpack) w2 with
    | Ok _ w3 => Ok (posixpath.join (posixpath.abspath (cwd w1) "data")
                       "fsaverage") w3
    | Raise e w3 => Raise e w3
    end ∧
  config (final (demo.fetch (Some "data"%string) demo.tampered))
    !! "SUBJECTS_DIR" = Some "data"%string ∧
  isdir (final (demo.fetch (Some "data"%string) demo.tampered))
        (posixpath.join (posixpath.abspath (cwd w1) "data") "fsaverage")
  = true.
Proof.
  apply (side_effects_precede_downloads demo.digest demo.unpack demo.base_py
           (Some "data"%string) demo.tampered "data").
  - apply Ok_final. run.
  - apply Ok_final. run.
Defined.

Lemma persisted_dir_is_not_absolutized_witness :
  config (final (demo.fetch (Some "data"%string) demo.fresh))
    !! "SUBJECTS_DIR" = Some "data"%string ∧
  posixpath.dirname "/home/ada/data/fsaverage"
  = posixpath.abspath (cwd demo.fresh) "data" ∧
  posixpath.dirname "/home/ada/data/fsaverage" ≠ "data"%string.
Proof.
  apply (persisted_dir_is_not_absolutized demo.digest demo.unpack
           demo.base_py "data" demo.fresh "/home/ada/data/fsaverage"
           (final (demo.fetch (Some "data"%string) demo.fresh))).
  - run.
  - run.
  - apply Ok_final. run.
Defined.

(** ** Runs on the concrete installation *)

(** A first call on a fresh account downloads both archives, root first,
    and returns the [fsaverage] directory below the default subjects
    directory. *)
Example first_call_downloads_both :
  let w' := final (demo.fetch None demo.fresh) in
  returned (demo.fetch None demo.fresh)
  = Some "/home/ada/mne_data/MNE-fsaverage-data/fsaverage"%string ∧
  requests w' = [ "https://osf.io/7ve8g/download?revision=2"%string;
                  "https://osf.io/3bxqt/download?revision=2"%string ] ∧
  config w' !! "SUBJECTS_DIR"
  = Some "/home/ada/mne_data/MNE-fsaverage-data"%string ∧
  file_content w'
    "/home/ada/mne_data/MNE-fsaverage-data/fsaverage/bem/fsaverage-head.fif"
  = Some "HEAD"%string.
Proof. runs. Qed.

(** A damaged root archive stops the call at the verification, after
    the configuration was written and the directory made. *)
Example damaged_archive_stops_the_call :
  let w' := final (demo.fetch (Some "data"%string) demo.tampered) in
  raised (demo.fetch (Some "data"%string) demo.tampered)
  = Some (VerificationError "5133fe92b7b8f03ae19219d5f46e4177"
            "00000000000000000000000000000000") ∧
  config w' !! "SUBJECTS_DIR" = Some "data"%string ∧
  isdir w' "/home/ada/data/fsaverage" = true ∧
  isfile w' "/home/ada/data/fsaverage/mri/brain.mgz" = false.
Proof. runs. Qed.

(** A file placed by hand is left as it is while the missing one is
    extracted. *)
Example hand_placed_file_survives :
  file_content demo.complete "/home/ada/data/fsaverage/mri/brain.mgz"
  = Some "MINE"%string ∧
  file_content demo.complete "/home/ada/data/fsaverage/surf/lh.white"
  = Some "WHITE"%string.
Proof. runs. Qed.

(** * Further properties of the module *)

(** ** Shared facts *)

Lemma set_config_map_same w key value :
  config w !! key = Some value →
  set_config_map (<[key := value]> (config w)) w = w.
Proof.
  intros Hk. unfold set_config_map. rewrite insert_id by done.
  by destruct w.
Qed.

Lemma keeps_trans w1 w2 w3 : keeps w1 w2 → keeps w2 w3 → keeps w1 w3.
Proof. intros [Hc1 Hf1] [Hc2 Hf2]. split; [congruence|eauto]. Qed.

Lemma keeps_isfile w0 w path :
  keeps w0 w → isfile w0 path = true → isfile w path = true.
Proof.
  intros Hk [content Hc]%isfile_file_content. apply isfile_file_content.
  exists content. by eapply keeps_file_content.
Qed.

Lemma makedirs_keeps name w : keeps w (final (makedirs name w)).
Proof.
  split; [apply (steady_makedirs name w)|].
  intros k content. apply makedirs_fs_keeps.
Qed.

(** What the resolver did when it returned: it was asked for nothing or
    for the directory it returned. *)
Lemma set_montage_coreg_path_request sd w s w1 :
  _set_montage_coreg_path sd w = Ok s w1 → sd = None ∨ sd = Some s.
Proof.
  intros (w0 & Hres & _)%set_montage_coreg_path_Ok.
  destruct sd as [s0|]; [|by left]. right.
  rewrite get_create_explicit in Hres. congruence.
Qed.

Lemma set_montage_coreg_path_reuse sd w p :
  config w !! "SUBJECTS_DIR" = Some p → sd = None ∨ sd = Some p →
  _set_montage_coreg_path sd w = Ok p w.
Proof.
  intros Hp Hsd. rewrite set_montage_coreg_path_cases.
  assert (_get_create_subjects_dir sd w = Ok p w) as ->.
  { destruct Hsd as [-> | ->];
      [by apply get_create_configured | apply get_create_explicit]. }
  rewrite Hp, String.eqb_refl. by rewrite set_config_map_same.
Qed.

(** The ways the resolver raises: the conflict, before anything is
    done, or the failure of making the default directory. *)
Lemma set_montage_coreg_path_Raise sd w e w' :
  _set_montage_coreg_path sd w = Raise e w' →
  (∃ s p, sd = Some s ∧ config w !! "SUBJECTS_DIR" = Some p ∧ p ≠ s ∧
          e = ValueError (conflict_message p s) ∧ w' = w) ∨
  (∃ base, sd = None ∧ config w !! "SUBJECTS_DIR" = None ∧
           e = OSError (posixpath.join base "MNE-fsaverage-data") ∧
           makedirs (posixpath.join base "MNE-fsaverage-data") w
           = Raise e w').
Proof.
  rewrite set_montage_coreg_path_cases. destruct sd as [s|].
  - rewrite get_create_explicit.
    destruct (config w !! "SUBJECTS_DIR") as [p|] eqn:Hp; [|done].
    destruct (String.eqb_spec p s) as [|Hne]; [done|].
    intros [= <- <-]. left. by exists s, p.
  - destruct (config w !! "SUBJECTS_DIR") as [p|] eqn:Hp.
    + rewrite (get_create_configured _ _ Hp), Hp, String.eqb_refl. done.
    + destruct (get_create_default _ Hp) as (base & _ & ->).
      destruct (makedirs _ w) as [[] w1|e1 w1] eqn:Emk.
      * pose proof (steady_makedirs
                      (posixpath.join base "MNE-fsaverage-data") w) as Hev.
        rewrite Emk in Hev. cbn in Hev. by rewrite (ev_config _ _ Hev), Hp.
      * intros [= <- <-]. right. exists base.
        pose proof (makedirs_Raise _ _ _ _ Emk) as ->. done.
Qed.

Lemma set_montage_coreg_path_keeps sd w :
  keeps w (final (_set_montage_coreg_path sd w)).
Proof.
  destruct (_set_montage_coreg_path sd w) as [s w1|e w1] eqn:E; cbn.
  - apply set_montage_coreg_path_Ok in E as (w0 & Hres & ->).
    assert (keeps w w0) as [Hc Hf]; [|by split].
    destruct sd as [s0|].
    { rewrite get_create_explicit in Hres. injection Hres as _ <-.
      apply keeps_refl. }
    destruct (config w !! "SUBJECTS_DIR") as [p|] eqn:Hp.
    { rewrite (get_create_configured _ _ Hp) in Hres.
      injection Hres as _ <-. apply keeps_refl. }
    destruct (get_create_default _ Hp) as (base & _ & Hrun).
    rewrite Hrun in Hres.
    pose proof (makedirs_keeps (posixpath.join base "MNE-fsaverage-data") w)
      as Hk.
    destruct (makedirs _ w) as [[] w2|]; [|done]. by injection Hres as _ <-.
  - apply set_montage_coreg_path_Raise in E
      as [(s & p & _ & _ & _ & _ & ->)|(base & _ & _ & _ & Hmk)].
    + apply keeps_refl.
    + pose proof (makedirs_keeps (posixpath.join base "MNE-fsaverage-data") w)
        as Hk.
      by rewrite Hmk in Hk.
Qed.

Lemma makedirs_Ok_adds_dirs name w w' :
  makedirs name w = Ok tt w' →
  ∀ k n, fs w' !! k = Some n → fs w !! k = Some n ∨ n = Dir.
Proof.
  intros Hmk k n. pose proof (makedirs_adds_dirs name w k n) as H.
  by rewrite Hmk in H.
Qed.

(** The ways [_get_create_subjects_dir] returns: with the world as it
    was, for a directory that was asked for or persisted, or after
    making the default directory. *)
Lemma get_create_subjects_dir_Ok sd w s w0 :
  _get_create_subjects_dir sd w = Ok s w0 →
  (w0 = w ∧ (sd = Some s ∨
             (sd = None ∧ config w !! "SUBJECTS_DIR" = Some s))) ∨
  (sd = None ∧ config w !! "SUBJECTS_DIR" = None ∧ makedirs s w = Ok tt w0).
Proof.
  destruct sd as [s0|].
  - rewrite get_create_explicit. intros [= <- <-]. left. auto.
  - destruct (config w !! "SUBJECTS_DIR") as [p|] eqn:Hp.
    + rewrite (get_create_configured _ _ Hp). intros [= <- <-]. left. auto.
    + destruct (get_create_default _ Hp) as (base & _ & ->).
      destruct (makedirs _ w) as [[] w2|] eqn:Emk; [|done].
      intros [= <- <-]. right. auto.
Qed.

(** ** The path resolver, further *)

Section resolver_further.
Import posixpath.

(** X1. When a directory is persisted and the caller asks for nothing,
    or for that very string, the resolver returns the persisted
    directory: no directory is made, not even the persisted one, the
    configuration is what it was, and no request is made. *)
Theorem resolver_reuses_persisted_dir sd w p :
  config w !! "SUBJECTS_DIR" = Some p →
  sd = None ∨ sd = Some p →
  _get_create_subjects_dir sd w = Ok p w ∧
  ∃ w1, _set_montage_coreg_path sd w = Ok p w1 ∧
        config w1 = config w ∧ fs w1 = fs w ∧
        cwd w1 = cwd w ∧ requests w1 = requests w.
Proof.
  intros Hp Hsd. split.
  - destruct Hsd as [-> | ->];
      [by apply get_create_configured | apply get_create_explicit].
  - exists w. by rewrite (set_montage_coreg_path_reuse sd w p).
Qed.

(** X3. Once the resolver has returned a directory the choice is
    sticky: the same call again, a call with no directory and a call
    with that directory all return it and change nothing, and a call
    with any other string raises the conflict naming both. *)
Theorem resolved_dir_is_sticky sd w s w1 :
  _set_montage_coreg_path sd w = Ok s w1 →
  _set_montage_coreg_path sd w1 = Ok s w1 ∧
  _set_montage_coreg_path None w1 = Ok s w1 ∧
  _set_montage_coreg_path (Some s) w1 = Ok s w1 ∧
  ∀ s', s' ≠ s →
    _set_montage_coreg_path (Some s') w1
    = Raise (ValueError (conflict_message s s')) w1.
Proof.
  intros Hrun.
  destruct (set_montage_coreg_path_effects _ _ _ _ Hrun) as (Hcfg & _ & _).
  pose proof (set_montage_coreg_path_request _ _ _ _ Hrun) as Hsd.
  repeat split; try (apply set_montage_coreg_path_reuse; by auto).
  intros s' Hne.
  rewrite set_montage_coreg_path_cases, get_create_explicit, Hcfg.
  destruct (String.eqb_spec s s') as [|_]; [congruence|done].
Qed.

(** X4. A call of the resolver that returns writes exactly one
    entry of the configuration, [SUBJECTS_DIR], makes no request and
    leaves the working directory alone; on disk everything that existed
    is still there, anything new is a directory, and nothing is new
    unless the default directory had to be made. *)
Theorem resolver_writes_one_entry sd w s w1 :
  _set_montage_coreg_path sd w = Ok s w1 →
  config w1 = <["SUBJECTS_DIR" := s]> (config w) ∧
  cwd w1 = cwd w ∧ requests w1 = requests w ∧
  (∀ k n, fs w !! k = Some n → fs w1 !! k = Some n) ∧
  (∀ k n, fs w1 !! k = Some n → fs w !! k = Some n ∨ n = Dir) ∧
  (sd ≠ None ∨ config w !! "SUBJECTS_DIR" ≠ None → fs w1 = fs w).
Proof.
  intros Hrun.
  destruct (set_montage_coreg_path_effects _ _ _ _ Hrun) as (_ & Hcwd & Hreq).
  apply set_montage_coreg_path_Ok in Hrun as (w0 & Hres & ->). cbn in *.
  pose proof (steady_get_create_subjects_dir sd w) as Hev.
  rewrite Hres in Hev. cbn in Hev.
  split; [by rewrite (ev_config _ _ Hev)|].
  split; [done|]. split; [done|].
  destruct (get_create_subjects_dir_Ok _ _ _ _ Hres)
    as [[-> _]|(-> & Hnone & Hmk)].
  - repeat split; auto.
  - split; [|split].
    + intros k n Hk.
      pose proof (makedirs_keeps s w) as [_ Hf]. rewrite Hmk in Hf.
      destruct n as [|content]; [by apply (ev_dirs _ _ Hev)|by apply Hf].
    + by apply (makedirs_Ok_adds_dirs s w).
    + intros [?|?]; done.
Qed.

End resolver_further.

Lemma resolver_reuses_persisted_dir_witness :
  _get_create_subjects_dir None demo.configured
  = Ok "/a"%string demo.configured ∧
  ∃ w1, _set_montage_coreg_path None demo.configured = Ok "/a"%string w1 ∧
        config w1 = config demo.configured ∧ fs w1 = fs demo.configured ∧
        cwd w1 = cwd demo.configured ∧
        requests w1 = requests demo.configured.
Proof.
  apply (resolver_reuses_persisted_dir None demo.configured "/a").
  - run.
  - by left.
Defined.

Lemma resolved_dir_is_sticky_witness :
  let w1 := final (_set_montage_coreg_path None demo.fresh) in
  let s := "/home/ada/mne_data/MNE-fsaverage-data"%string in
  _set_montage_coreg_path None w1 = Ok s w1 ∧
  _set_montage_coreg_path None w1 = Ok s w1 ∧
  _set_montage_coreg_path (Some s) w1 = Ok s w1 ∧
  ∀ s', s' ≠ s →
    _set_montage_coreg_path (Some s') w1
    = Raise (ValueError (conflict_message s s')) w1.
Proof.
  apply (resolved_dir_is_sticky None demo.fresh).
  apply Ok_final. run.
Defined.

Lemma resolver_writes_one_entry_witness :
  let w1 := final (_set_montage_coreg_path None demo.fresh) in
  let s := "/home/ada/mne_data/MNE-fsaverage-data"%string in
  config w1 = <["SUBJECTS_DIR"%string := s]> (config demo.fresh) ∧
  cwd w1 = cwd demo.fresh ∧ requests w1 = requests demo.fresh ∧
  (∀ k n, fs demo.fresh !! k = Some n → fs w1 !! k = Some n) ∧
  (∀ k n, fs w1 !! k = Some n → fs demo.fresh !! k = Some n ∨ n = Dir) ∧
  (@None string ≠ None ∨ config demo.fresh !! "SUBJECTS_DIR" ≠ None →
   fs w1 = fs demo.fresh).
Proof.
  apply (resolver_writes_one_entry None demo.fresh).
  apply Ok_final. run.
Defined.

(** ** fetch_fsaverage, further *)

Lemma write_member_requests path content w :
  requests (final (write_member path content w)) = requests w.
Proof.
  unfold write_member. destruct (mkdir_chain _ _ _) as [f|]; [|done].
  by destruct (node_at f _) as [[|old]|].
Qed.

Section orchestrator_further.
Context (content_hash : string → string).
Context (unzip : string → option (list (string * string))).
Context (module_file : string).
Import posixpath.

Lemma extract_requests members destination selected w :
  requests (final (extract members destination selected w)) = requests w.
Proof.
  revert w. induction selected as [|name rest IH]; intros w; [done|].
  unfold extract. rewrite for_each_cons.
  destruct (member name members) as [content|]; [|done].
  pose proof (write_member_requests (join destination name) content w) as Hw.
  destruct (write_member _ _ w) as [[] w1|e w1]; [|done].
  cbn in Hw. rewrite <- Hw. apply IH.
Qed.

(** A run of the synchronizer makes at most one request, for its own
    url. *)
Lemma manifest_check_download_requests destination manifest_path url hash_ w :
  let w' := final (_manifest_check_download content_hash unzip destination
                     manifest_path url hash_ w) in
  requests w' = requests w ∨ requests w' = url :: requests w.
Proof.
  unfold _manifest_check_download, bind, get_world, read_text.
  destruct (node_at _ _) as [[|text]|]; cbn; auto.
  case_bool_decide; cbn; auto. unfold http_get.
  destruct (remote w !! url) as [archive|]; cbn; auto.
  destruct (negb _); cbn; auto.
  destruct (unzip archive) as [members|]; cbn; auto.
  right. apply extract_requests.
Qed.

(** After a run that returned, a run in any later world that kept the
    files has nothing to do. *)
Lemma manifest_check_download_again destination manifest_path url hash_
    w wa wb :
  _manifest_check_download content_hash unzip destination manifest_path
    url hash_ w = Ok tt wa →
  keeps wa wb →
  _manifest_check_download content_hash unzip destination manifest_path
    url hash_ wb = Ok tt wb.
Proof.
  intros Hrun Hkeep.
  pose proof Hrun as (text & Htext & _)%manifest_check_download_Ok.
  pose proof (manifest_check_download_keeps content_hash unzip destination
                manifest_path url hash_ w) as Hk.
  rewrite Hrun in Hk. cbn in Hk.
  apply manifest_check_download_complete with (text := text).
  - eapply keeps_file_content; [exact Hkeep|].
    by eapply keeps_file_content.
  - apply missing_nil. intros name Hin. apply (keeps_isfile wa); [done|].
    by eapply manifest_check_download_fills.
Qed.

Lemma all_parts_keeps subjects_dir w :
  keeps w (final (for_each (fsaverage_data_parts module_file subjects_dir)
                           (sync content_hash unzip) w)).
Proof.
  cbn [fsaverage_data_parts for_each]. unfold bind, sync. cbn [snd].
  match goal with
  | |- context [_manifest_check_download ?h ?u ?d ?m ?l ?x w] =>
      pose proof (manifest_check_download_keeps h u d m l x w) as H1;
      destruct (_manifest_check_download h u d m l x w) as [[] w1|e w1]
  end; [|done].
  match goal with
  | |- context [_manifest_check_download ?h ?u ?d ?m ?l ?x w1] =>
      pose proof (manifest_check_download_keeps h u d m l x w1) as H2;
      destruct (_manifest_check_download h u d m l x w1) as [[] w2|e w2]
  end; cbn in *; by eapply keeps_trans.
Qed.

(** X2. A call that fails in the resolver stops there, for
    [fetch_fsaverage] as for the resolver: the same exception in the
    same world, with nothing persisted, no request made, every file and
    directory still on disk and nothing new on it but directories. The
    failure is the conflict, for a requested string that differs from
    the persisted one, and then nothing at all has changed; or it is
    the file-system failure of making the default directory. A call
    with no directory never conflicts. *)
Theorem failed_resolution_persists_nothing sd w e w' :
  _set_montage_coreg_path sd w = Raise e w' →
  fetch_fsaverage content_hash unzip module_file sd w = Raise e w' ∧
  config w' = config w ∧ requests w' = requests w ∧
  (∀ k n, fs w !! k = Some n → fs w' !! k = Some n) ∧
  (∀ k n, fs w' !! k = Some n → fs w !! k = Some n ∨ n = Dir) ∧
  ((∃ s p, sd = Some s ∧ config w !! "SUBJECTS_DIR" = Some p ∧ p ≠ s ∧
           e = ValueError (conflict_message p s) ∧ w' = w) ∨
   (∃ path, sd = None ∧ config w !! "SUBJECTS_DIR" = None ∧
            e = OSError path)).
Proof.
  intros Hrun. split; [by rewrite fetch_fsaverage_cases, Hrun|].
  destruct (set_montage_coreg_path_Raise _ _ _ _ Hrun)
    as [(s & p & -> & Hp & Hne & -> & ->)|(base & -> & Hnone & -> & Hmk)].
  - do 4 (split; [by auto|]). left. by exists s, p.
  - set (target := join base "MNE-fsaverage-data") in *.
    pose proof (steady_makedirs target w) as Hev.
    pose proof (makedirs_requests target w) as Hreq.
    pose proof (makedirs_fs_keeps target w) as Hkeep.
    pose proof (makedirs_adds_dirs target w) as Hadd.
    rewrite Hmk in Hev, Hreq, Hkeep, Hadd. cbn in Hev, Hreq, Hkeep, Hadd.
    split; [apply Hev|]. split; [done|]. split; [exact Hkeep|].
    split; [exact Hadd|]. right. by exists target.
Qed.

(** X5. The loop over the two archives stops at the first failure: when
    the synchronizer raises on the first descriptor, [fetch_fsaverage]
    raises the same exception in the world that run left, and no request
    for the second archive was made. *)
Theorem first_failure_stops_the_call sd w s w1 w2 root bem e w3 :
  _set_montage_coreg_path sd w = Ok s w1 →
  makedirs (join (abspath (cwd w1) s) "fsaverage") w1 = Ok tt w2 →
  fsaverage_data_parts module_file (abspath (cwd w1) s) = [root; bem] →
  sync content_hash unzip root w2 = Raise e w3 →
  url bem.2 ∉ requests w →
  fetch_fsaverage content_hash unzip module_file sd w = Raise e w3 ∧
  url bem.2 ∉ requests w3.
Proof.
  intros Hres Hmk Hparts Hroot Hfresh.
  destruct (set_montage_coreg_path_effects _ _ _ _ Hres) as (_ & _ & Hreq1).
  pose proof (makedirs_requests (join (abspath (cwd w1) s) "fsaverage") w1)
    as Hreq2.
  rewrite Hmk in Hreq2. cbn in Hreq2.
  split.
  - rewrite fetch_fsaverage_cases, Hres, Hmk, Hparts, for_each_cons.
    by rewrite Hroot.
  - injection Hparts as <- <-. unfold sync in Hroot. cbn in Hroot, Hfresh |- *.
    match type of Hroot with
    | _manifest_check_download ?h ?u ?d ?m ?l ?x w2 = _ =>
        pose proof (manifest_check_download_requests d m l x w2) as Hlog
    end.
    cbn in Hlog. rewrite Hroot in Hlog. cbn in Hlog.
    rewrite Hreq2, Hreq1 in Hlog.
    destruct Hlog as [-> | ->]; [done|].
    intros [Heq|Hin]%elem_of_cons; [discriminate|done].
Qed.

Lemma for_each_cons_Ok {A} (x : A) rest body w w' :
  for_each (x :: rest) body w = Ok tt w' →
  ∃ w1, body x w = Ok tt w1 ∧ for_each rest body w1 = Ok tt w'.
Proof.
  rewrite for_each_cons. destruct (body x w) as [[] w1|]; [eauto|done].
Qed.

Lemma sync_keeps part w : keeps w (final (sync content_hash unzip part w)).
Proof. apply manifest_check_download_keeps. Qed.

Lemma sync_again part w wa wb :
  sync content_hash unzip part w = Ok tt wa → keeps wa wb →
  sync content_hash unzip part wb = Ok tt wb.
Proof. apply manifest_check_download_again. Qed.

Lemma fs_key_cwd w w' path : cwd w' = cwd w → fs_key w' path = fs_key w path.
Proof. intros Hc. unfold fs_key. by rewrite Hc. Qed.

Lemma trail_cwd w w' path : cwd w' = cwd w → trail w' path = trail w path.
Proof. intros Hc. unfold trail. by rewrite Hc. Qed.

Lemma evolves_node_at_dir w w' k :
  evolves w w' → node_at (fs w) k = Some Dir → node_at (fs w') k = Some Dir.
Proof. intros Hev. destruct k; [done|]. cbn. apply (ev_dirs _ _ Hev). Qed.

(** What a call that returned went through, with the worlds between. *)
Lemma fetch_fsaverage_steps sd w fs_dir w' :
  fetch_fsaverage content_hash unzip module_file sd w = Ok fs_dir w' →
  ∃ s w1 w2,
    _set_montage_coreg_path sd w = Ok s w1 ∧
    fs_dir = join (abspath (cwd w) s) "fsaverage" ∧
    makedirs fs_dir w1 = Ok tt w2 ∧
    for_each (fsaverage_data_parts module_file (abspath (cwd w) s))
             (sync content_hash unzip) w2 = Ok tt w' ∧
    config w' !! "SUBJECTS_DIR" = Some s ∧
    cwd w1 = cwd w ∧ evolves w1 w2 ∧ evolves w2 w'.
Proof.
  intros Hrun.
  destruct (fetch_fsaverage_Ok _ _ _ _ _ _ _ Hrun)
    as (s & w1 & w2 & Hres & Hmk & Hall & -> & Hcfg).
  exists s, w1, w2.
  destruct (set_montage_coreg_path_effects _ _ _ _ Hres) as (_ & Hcwd & _).
  pose proof (steady_makedirs (join (abspath (cwd w) s) "fsaverage") w1)
    as Hev1.
  pose proof (steady_all_parts content_hash unzip module_file
                (abspath (cwd w) s) w2) as Hev2.
  rewrite Hmk in Hev1. rewrite Hall in Hev2. cbn in Hev1, Hev2.
  do 7 (split; [done|]). done.
Qed.

Lemma fetch_fsaverage_keeps sd w :
  keeps w (final (fetch_fsaverage content_hash unzip module_file sd w)).
Proof.
  rewrite fetch_fsaverage_cases.
  pose proof (set_montage_coreg_path_keeps sd w) as H1.
  destruct (_set_montage_coreg_path sd w) as [s w1|e w1]; [|done].
  pose proof (makedirs_keeps (join (abspath (cwd w1) s) "fsaverage") w1)
    as H2.
  destruct (makedirs _ w1) as [[] w2|e w2]; [|by eapply keeps_trans].
  pose proof (all_parts_keeps (abspath (cwd w1) s) w2) as H3.
  destruct (for_each _ _ w2) as [[] w3|e w3]; cbn in *;
    eapply keeps_trans; eauto using keeps_trans.
Qed.

(** X6. After a call with a relative directory has returned, the parent
    of the path it returned, though it is the same place as that
    directory, cannot be passed back in: the call raises the conflict
    between the relative string and its absolute form, and changes
    nothing. *)
Theorem returned_parent_is_refused s w fs_dir w' :
  isabs (cwd w) = true →
  isabs s = false →
  fetch_fsaverage content_hash unzip module_file (Some s) w = Ok fs_dir w' →
  fs_key w' (dirname fs_dir) = fs_key w' s ∧
  fetch_fsaverage content_hash unzip module_file (Some (dirname fs_dir)) w'
  = Raise (ValueError (conflict_message s (dirname fs_dir))) w'.
Proof.
  intros Hcwd Hrel Hrun.
  destruct (fetch_fsaverage_steps _ _ _ _ Hrun)
    as (s1 & w1 & w2 & Hres & -> & _ & _ & Hcfg & Hc1 & Hev1 & Hev2).
  pose proof Hres as (w0 & [= <- <-] & _)%set_montage_coreg_path_Ok.
  assert (Hc : cwd w' = cwd w)
    by (by rewrite (ev_cwd _ _ Hev2), (ev_cwd _ _ Hev1)).
  pose proof (abspath_tidy (cwd w) s Hcwd) as Htidy.
  rewrite (dirname_join_tidy _ "fsaverage" Htidy) by done.
  split.
  - rewrite <- Hc. apply fs_key_abspath. by rewrite Hc.
  - rewrite fetch_fsaverage_cases, set_montage_coreg_path_cases,
      get_create_explicit, Hcfg.
    destruct (String.eqb_spec s (abspath (cwd w) s)) as [Heq|_]; [|done].
    apply tidy_isabs in Htidy. congruence.
Qed.

(** X7. A second call right after one that returned is a no-op: it
    returns the same path and the world it was given, so it makes no
    request, writes no file and leaves the configuration as it is. *)
Theorem fetch_fsaverage_twice sd w fs_dir w' :
  fetch_fsaverage content_hash unzip module_file sd w = Ok fs_dir w' →
  fetch_fsaverage content_hash unzip module_file sd w' = Ok fs_dir w'.
Proof.
  intros Hrun.
  destruct (fetch_fsaverage_steps _ _ _ _ Hrun)
    as (s & w1 & w2 & Hres & -> & Hmk & Hall & Hcfg & Hc1 & Hev1 & Hev2).
  assert (Hc : cwd w' = cwd w)
    by (by rewrite (ev_cwd _ _ Hev2), (ev_cwd _ _ Hev1)).
  rewrite fetch_fsaverage_cases.
  rewrite (set_montage_coreg_path_reuse sd w' s Hcfg
             (set_montage_coreg_path_request _ _ _ _ Hres)).
  rewrite Hc.
  set (subjects_dir := abspath (cwd w) s) in *.
  rewrite (makedirs_idle (join subjects_dir "fsaverage") w').
  - unfold fsaverage_data_parts in Hall |- *.
    apply for_each_cons_Ok in Hall as (w3 & Hroot & Hall).
    apply for_each_cons_Ok in Hall as (w4 & Hbem & [= <-]).
    rewrite for_each_cons.
    match type of Hbem with
    | sync _ _ ?part w3 = _ => pose proof (sync_keeps part w3) as Hk
    end.
    rewrite Hbem in Hk. cbn in Hk.
    rewrite (sync_again _ _ _ _ Hroot Hk). cbv beta iota.
    rewrite for_each_cons.
    by rewrite (sync_again _ _ _ _ Hbem (keeps_refl _)).
  - apply String.eqb_neq. by apply join_nonempty.
  - intros k Hk. apply (evolves_node_at_dir _ _ _ Hev2).
    apply (makedirs_Ok_trail _ _ _ Hmk).
    rewrite (trail_cwd w1 w') in Hk; [done|congruence].
Qed.

(** X8. No file is ever overwritten: whatever a call does, return or
    raise, every file that was on disk before it still has the bytes it
    had. *)
Theorem fetch_fsaverage_never_overwrites sd w path content :
  file_content w path = Some content →
  file_content (final (fetch_fsaverage content_hash unzip module_file sd w))
               path = Some content.
Proof. apply keeps_file_content, fetch_fsaverage_keeps. Qed.

(** X9. After a call that returned, the directory the archives went
    to, which is the absolute form of the persisted subjects directory
    and the parent of the returned path, exists, also when the caller
    named a directory that did not: making the [fsaverage] directory
    made it on the way. *)
Theorem fetched_subjects_dir_exists sd w fs_dir w' :
  isabs (cwd w) = true →
  fetch_fsaverage content_hash unzip module_file sd w = Ok fs_dir w' →
  ∃ s, config w' !! "SUBJECTS_DIR" = Some s ∧
       dirname fs_dir = abspath (cwd w) s ∧
       isdir w' (abspath (cwd w) s) = true.
Proof.
  intros Hcwd Hrun.
  destruct (fetch_fsaverage_steps _ _ _ _ Hrun)
    as (s & w1 & w2 & Hres & -> & Hmk & _ & Hcfg & Hc1 & Hev1 & Hev2).
  exists s. split; [done|].
  pose proof (abspath_tidy (cwd w) s Hcwd) as Htidy.
  split; [by apply dirname_join_tidy|].
  apply (evolves_isdir _ _ _ Hev2). unfold isdir.
  rewrite (fs_key_cwd w w2) by (by rewrite (ev_cwd _ _ Hev1)).
  rewrite (fs_key_abspath w s Hcwd).
  destruct (fs_key w s) as [|c ks] eqn:Eks; [done|]. cbn [node_at].
  rewrite (makedirs_Ok_way _ _ _ Hmk (c :: ks)); [done|].
  apply elem_of_way. exists (length (c :: ks)).
  rewrite (fs_key_cwd w w1) by done.
  rewrite (fs_key_child w s "fsaverage" Hcwd settled_fsaverage), Eks.
  split; [rewrite length_app; cbn; lia|].
  by rewrite (take_app_length (c :: ks)).
Qed.

End orchestrator_further.

(** ** Where the manifests are looked up *)

Section manifests.
Import pystr posixpath.
Implicit Types (s d p : string).

Local Arguments String.append : simpl nomatch.

Lemma rstrip_sep_all s : all_sep s = true → rstrip_sep s = ""%string.
Proof.
  induction s as [|c s IH]; [done|]. cbn.
  intros [Hc Hs]%andb_true_iff. by rewrite (IH Hs), Hc.
Qed.

Lemma rstrip_sep_shape s :
  all_sep s = false →
  rstrip_sep s ≠ ""%string ∧ endswith_sep (rstrip_sep s) = false.
Proof.
  induction s as [|c s IH]; [done|]. cbn.
  destruct (Ascii.eqb c "/") eqn:Ec; cbn.
  - intros Hs. destruct (IH Hs) as [Hne Hend].
    apply String.eqb_neq in Hne. rewrite Hne. cbn.
    apply String.eqb_neq in Hne. split; [done|].
    by destruct (rstrip_sep s).
  - intros _. rewrite andb_false_r. split; [done|].
    destruct (all_sep s) eqn:Es.
    + rewrite (rstrip_sep_all _ Es). cbn. exact Ec.
    + destruct (IH eq_refl) as [Hne Hend]. cbn. by destruct (rstrip_sep s).
Qed.

(** What [dirname] returns: only separators (the empty string among
    them), or a non-empty string that does not end in a separator. *)
Lemma dirname_shape p :
  all_sep (dirname p) = true ∨
  (dirname p ≠ ""%string ∧ endswith_sep (dirname p) = false).
Proof.
  unfold dirname. destruct (String.eqb_spec (upto_last_sep p) "") as [->|Hne].
  - by left.
  - cbn. destruct (all_sep (upto_last_sep p)) eqn:Es; cbn; [by left|].
    right. by apply rstrip_sep_shape.
Qed.

Lemma plain_not_abs name :
  contains_sep name = false → startswith name "/" = false.
Proof.
  destruct name as [|c name]; [done|]. cbn.
  by intros [-> _]%orb_false_iff.
Qed.

(** Joining a plain name to a directory name and taking the directory
    name again gives the directory name back. *)
Lemma dirname_join_dirname p name :
  contains_sep name = false →
  dirname (join (dirname p) name) = dirname p.
Proof.
  intros Hname. set (d := dirname p).
  unfold join. rewrite (plain_not_abs _ Hname).
  destruct (dirname_shape p) as [Hall|[Hne Hend]]; fold d in Hall || idtac.
  - assert (Hcond : String.eqb d "" || endswith_sep d = true).
    { destruct (String.eqb_spec d "") as [|Hd]; [done|].
      by apply all_sep_endswith. }
    rewrite Hcond. unfold dirname at 1.
    rewrite (upto_last_sep_all _ _ Hall Hname). fold d.
    by rewrite Hall, andb_false_r.
  - fold d in Hne, Hend. rewrite Hend, orb_false_r.
    destruct (String.eqb_spec d "") as [|_]; [done|].
    unfold dirname at 1.
    change ("/" +:+ name) with (String "/" name).
    rewrite (upto_last_sep_app _ _ Hname), all_sep_app.
    destruct (all_sep d) eqn:Eall.
    { apply all_sep_endswith in Eall; [congruence|done]. }
    destruct (String.eqb_spec (d +:+ "/") "") as [E|_].
    { destruct d; discriminate. }
    cbn. by apply rstrip_sep_app.
Qed.

(** X10. Wherever the module file is, and whatever the subjects
    directory, the manifest of each of the two descriptors is looked up
    in the directory of the module file: its directory name is
    [FSAVERAGE_MANIFEST_PATH]. *)
Theorem manifests_sit_beside_the_module module_file subjects_dir :
  Forall (λ part, dirname (manifest part.2)
                  = FSAVERAGE_MANIFEST_PATH module_file)
         (fsaverage_data_parts module_file subjects_dir).
Proof.
  unfold fsaverage_data_parts, FSAVERAGE_MANIFEST_PATH.
  repeat constructor; cbn [snd manifest]; by apply dirname_join_dirname.
Qed.

End manifests.

(** ** The further properties on the concrete installation *)

Lemma failed_resolution_persists_nothing_witness :
  demo.fetch (Some "/b"%string) demo.configured
  = Raise (ValueError (conflict_message "/a" "/b")) demo.configured ∧
  config demo.configured = config demo.configured ∧
  requests demo.configured = requests demo.configured ∧
  (∀ k n, fs demo.configured !! k = Some n →
          fs demo.configured !! k = Some n) ∧
  (∀ k n, fs demo.configured !! k = Some n →
          fs demo.configured !! k = Some n ∨ n = Dir) ∧
  ((∃ s p, Some "/b"%string = Some s ∧
           config demo.configured !! "SUBJECTS_DIR" = Some p ∧ p ≠ s ∧
           ValueError (conflict_message "/a" "/b")
           = ValueError (conflict_message p s) ∧
           demo.configured = demo.configured) ∨
   (∃ path, Some "/b"%string = None ∧
            config demo.configured !! "SUBJECTS_DIR" = None ∧
            ValueError (conflict_message "/a" "/b") = OSError path)).
Proof.
  apply (failed_resolution_persists_nothing demo.digest demo.unpack
           demo.base_py (Some "/b"%string) demo.configured
           (ValueError (conflict_message "/a" "/b")) demo.configured).
  run.
Defined.

Lemma first_failure_stops_the_call_witness :
  let w1 := final (_set_montage_coreg_path (Some "data"%string)
                     demo.tampered) in
  let w2 := final (makedirs "/home/ada/data/fsaverage" w1) in
  let root := ("root.zip"%string,
               {| url := demo.root_url; hash_ := demo.root_hash;
                  manifest := demo.root_manifest;
                  destination := "/home/ada/data" |}) in
  let bem := ("bem.zip"%string,
              {| url := "https://osf.io/7ve8g/download?revision=2";
                 hash_ := "608c438af6a15a19b66232323088b32d";
                 manifest := "/opt/mne/datasets/_fsaverage/bem.txt";
                 destination := "/home/ada/data/fsaverage" |}) in
  let w3 := final (sync demo.digest demo.unpack root w2) in
  demo.fetch (Some "data"%string) demo.tampered
  = Raise (VerificationError demo.root_hash
             "00000000000000000000000000000000") w3 ∧
  url bem.2 ∉ requests w3.
Proof.
  intros w1 w2 root bem w3.
  apply (first_failure_stops_the_call demo.digest demo.unpack demo.base_py
           (Some "data"%string) demo.tampered "data" w1 w2 root bem).
  - apply Ok_final. run.
  - apply Ok_final. run.
  - run.
  - apply Raise_final. run.
  - intros Hin. vm_compute in Hin. by apply elem_of_nil in Hin.
Defined.

Lemma returned_parent_is_refused_witness :
  let w' := final (demo.fetch (Some "data"%string) demo.fresh) in
  fs_key w' (posixpath.dirname "/home/ada/data/fsaverage") = fs_key w' "data" ∧
  demo.fetch (Some (posixpath.dirname "/home/ada/data/fsaverage")) w'
  = Raise (ValueError
             (conflict_message "data"
                (posixpath.dirname "/home/ada/data/fsaverage"))) w'.
Proof.
  apply (returned_parent_is_refused demo.digest demo.unpack demo.base_py
           "data" demo.fresh).
  - run.
  - run.
  - apply Ok_final. run.
Defined.

Lemma fetch_fsaverage_twice_witness :
  let w' := final (demo.fetch None demo.fresh) in
  demo.fetch None w'
  = Ok "/home/ada/mne_data/MNE-fsaverage-data/fsaverage"%string w'.
Proof.
  apply (fetch_fsaverage_twice demo.digest demo.unpack demo.base_py
           None demo.fresh).
  apply Ok_final. run.
Defined.

Lemma fetch_fsaverage_never_overwrites_witness :
  file_content (final (demo.fetch (Some "data"%string) demo.partial))
               "/home/ada/data/fsaverage/mri/brain.mgz"
  = Some "MINE"%string.
Proof.
  apply (fetch_fsaverage_never_overwrites demo.digest demo.unpack
           demo.base_py (Some "data"%string) demo.partial).
  run.
Defined.

Lemma fetched_subjects_dir_exists_witness :
  let w' := final (demo.fetch (Some "data"%string) demo.fresh) in
  ∃ s, config w' !! "SUBJECTS_DIR" = Some s ∧
       posixpath.dirname "/home/ada/data/fsaverage"
       = posixpath.abspath (cwd demo.fresh) s ∧
       isdir w' (posixpath.abspath (cwd demo.fresh) s) = true.
Proof.
  apply (fetched_subjects_dir_exists demo.digest demo.unpack demo.base_py
           (Some "data"%string) demo.fresh).
  - run.
  - apply Ok_final. run.
Defined.

(** The resolver on its own persists a directory without making it. *)
Example resolver_alone_makes_no_directory :
  let w1 := final (_set_montage_coreg_path (Some "/nowhere"%string)
                     demo.fresh) in
  config w1 !! "SUBJECTS_DIR" = Some "/nowhere"%string ∧
  isdir w1 "/nowhere" = false.
Proof. runs. Qed.

(** With [~/mne_data] blocked by a regular file, a call with no
    directory fails in the resolver and leaves the world as it was. *)
Example blocked_call_changes_nothing :
  demo.fetch None demo.blocked
  = Raise (OSError "/home/ada/mne_data/MNE-fsaverage-data") demo.blocked.
Proof. run. Qed.
